(** * Portfolio front end (src/App.jsx): theme state, navigation bar,
      content loading and section rendering.

    The development follows App.jsx component by component.  Browser
    objects the code talks to (localStorage, the root element's class
    list, the media query, the network) are explicit state or explicit
    inputs; React state cells are record fields; promises are computations
    that settle as fulfilled or rejected. *)

From Stdlib Require Import ZArith.
From stdpp Require Import gmap strings list fin_maps.

Local Open Scope string_scope.

(** ** JavaScript values

    What [JSON.parse] can produce, together with [undefined], which is
    what reading a missing property gives.  Numbers are integers here: the
    code only tests numbers for truthiness and hands them on. *)
Module JS.

#[local] Unset Elimination Schemes.

Inductive value : Type :=
  | Undefined
  | Null
  | Bool (b : bool)
  | Num (n : Z)
  | Str (s : string)
  | Arr (elems : list value)
  | Obj (props : gmap string value).

#[local] Set Elimination Schemes.

(** [ToBoolean]: the falsy values are undefined, null, false, 0 and the
    empty string. *)
Definition truthy (v : value) : bool :=
  match v with
  | Undefined | Null => false
  | Bool b => b
  | Num n => negb (n =? 0)%Z
  | Str s => negb (String.eqb s "")
  | Arr _ | Obj _ => true
  end.

(** [a || b] *)
Definition or (a b : value) : value := if truthy a then a else b.

(** Truthiness of a value that is a string or absent (null, undefined):
    what [localStorage.getItem] and [import.meta.env.X] give. *)
Definition truthy_str (o : option string) : bool :=
  match o with
  | None => false
  | Some s => negb (String.eqb s "")
  end.

(** [o || d] for such a value and a string [d]. *)
Definition or_str (o : option string) (d : string) : string :=
  match o with
  | Some s => if truthy_str o then s else d
  | None => d
  end.

(** [a && b] in child position of a JSX element, where [b] is an element:
    the element when [a] is truthy, and the falsy value itself otherwise. *)
Definition and_then {E} (inj : value -> E) (a : value) (b : E) : E :=
  if truthy a then b else inj a.

(** Exceptions raised by the operations below. *)
Inductive error : Type :=
  | TypeError
  | SyntaxError
  | NetworkFailure.

Inductive completion (A : Type) : Type :=
  | Normal (a : A)
  | Throw (e : error).
Arguments Normal {A} a.
Arguments Throw {A} e.

(** [v.k] for the property names App.jsx reads (none of them is a built-in
    of a primitive's prototype): a TypeError on undefined and null, the
    own property of an object, undefined otherwise. *)
Definition get (v : value) (k : string) : completion value :=
  match v with
  | Undefined | Null => Throw TypeError
  | Obj props => Normal (default Undefined (props !! k))
  | _ => Normal Undefined
  end.

Definition bind {A B} (c : completion A) (f : A -> completion B) : completion B :=
  match c with
  | Normal a => f a
  | Throw e => Throw e
  end.

(** [xs.map(f)] with a callback that may throw: left to right, stopping at
    the first exception. *)
Fixpoint map_elems {B} (f : value -> completion B) (xs : list value)
  : completion (list B) :=
  match xs with
  | [] => Normal []
  | x :: rest =>
      bind (f x) (fun y => bind (map_elems f rest) (fun ys => Normal (y :: ys)))
  end.

(** [v.map(f)]: only arrays have a [map]; on undefined and null the
    property read throws, on the other values [v.map] is undefined and the
    call throws. *)
Definition map {B} (v : value) (f : value -> completion B) : completion (list B) :=
  match v with
  | Arr xs => map_elems f xs
  | _ => Throw TypeError
  end.

End JS.

(** ** useTheme (App.jsx 10-30) *)
Module Theme.

(** The two values of the spec's ThemePreference. *)
Inductive preference : Type := light | dark.

Definition name (p : preference) : string :=
  match p with light => "light" | dark => "dark" end.

(** The other value, for stating what the toggle does. *)
Definition opposite (p : preference) : preference :=
  match p with light => dark | dark => light end.

(** [b ? 'dark' : 'light'] *)
Definition of_matches (b : bool) : string := if b then "dark" else "light".

(** The browser state the hook reads and writes, and the hook's own state
    cell.  [storage] is localStorage, [classes] the class list of the
    document's root element, [theme] the React state. *)
Record state : Type := mk_state {
  theme : string;
  storage : gmap string string;
  classes : list string;
}.

(** [localStorage.getItem(k)]: the stored string or null. *)
Definition getItem (st : gmap string string) (k : string) : option string := st !! k.

(** [localStorage.setItem(k, v)] *)
Definition setItem (st : gmap string string) (k v : string) : gmap string string :=
  <[k := v]> st.

(** [classList.remove(a, b)] and [classList.add(c)] on a token list, for
    tokens the DOM accepts; [ThemeDom] has the exceptions of [add]. *)
Definition classList_remove (tokens : list string) (cl : list string) : list string :=
  filter (fun c => c ∉ tokens) cl.

Definition classList_add (c : string) (cl : list string) : list string :=
  if decide (c ∈ cl) then cl else cl ++ [c].

(** Line 12, the lazy initialiser of the state cell:
    [localStorage.getItem('theme') || (prefersDark ? 'dark' : 'light')]. *)
Definition resolve (st : gmap string string) (prefersDark : bool) : string :=
  JS.or_str (getItem st "theme") (of_matches prefersDark).

(** Lines 13-18, the effect that runs after the first render and after
    every render in which [theme] has changed. *)
Definition apply_theme (s : state) : state :=
  {| theme := theme s;
     storage := setItem (storage s) "theme" (theme s);
     classes := classList_add (theme s) (classList_remove ["light"; "dark"] (classes s)) |}.

(** Mounting the hook: the initialiser, the first render, then the effect. *)
Definition mount (st : gmap string string) (cl : list string) (prefersDark : bool) : state :=
  apply_theme {| theme := resolve st prefersDark; storage := st; classes := cl |}.

(** [setTheme(t)]: React keeps the state and skips the effect when the new
    value equals the current one; otherwise it re-renders and the effect
    runs, since its dependency changed. *)
Definition setTheme (t : string) (s : state) : state :=
  if String.eqb t (theme s) then s
  else apply_theme {| theme := t; storage := storage s; classes := classes s |}.

(** Lines 21-25, the listener for the media query's change event;
    [matches] is [e.matches]. *)
Definition handler (matches : bool) (s : state) : state :=
  if negb (JS.truthy_str (getItem (storage s) "theme"))
  then setTheme (of_matches matches) s
  else s.

(** Lines 63 and 76: the value the toggle buttons pass to [setTheme]. *)
Definition toggle (t : string) : string :=
  if String.eqb t "dark" then "light" else "dark".

(** What can happen to a mounted hook. *)
Inductive event : Type :=
  | SetPreference (p : preference)   (* setTheme called with a theme value *)
  | ClickToggle                      (* one of the two toggle buttons *)
  | OsChange (matches : bool).       (* the media query changed *)

Definition step (s : state) (e : event) : state :=
  match e with
  | SetPreference p => setTheme (name p) s
  | ClickToggle => setTheme (toggle (theme s)) s
  | OsChange b => handler b s
  end.

Definition run (s : state) (evs : list event) : state := foldl step s evs.

(** The stored value is the current theme, and it is a truthy string: what
    the effect of lines 13-18 establishes. *)
Definition persisted (s : state) : Prop :=
  getItem (storage s) "theme" = Some (theme s) /\ theme s <> "".

End Theme.

(** ** Nav (App.jsx 32-83): the state cells and their handlers *)
Module Nav.

(** [open] and [scrollUp] are the two state cells, [lastY] the ref.
    [window.scrollY] is a pixel offset; only its order is used. *)
Record state : Type := mk_state {
  open : bool;
  scrollUp : bool;
  lastY : Z;
}.

(** Lines 33-35: the initial values. *)
Definition init : state := {| open := false; scrollUp := true; lastY := 0 |}.

(** Lines 37-41, the scroll listener; [y] is [window.scrollY]. *)
Definition onScroll (y : Z) (s : state) : state :=
  {| open := open s; scrollUp := (y <? lastY s)%Z; lastY := y |}.

(** Line 68: the menu button. *)
Definition click_menu (s : state) : state :=
  {| open := negb (open s); scrollUp := scrollUp s; lastY := lastY s |}.

(** Line 74: a link of the expanded menu. *)
Definition click_item (s : state) : state :=
  {| open := false; scrollUp := scrollUp s; lastY := lastY s |}.

(** Line 54: the class that shows or hides the bar. *)
Definition opacity (s : state) : string :=
  if scrollUp s then "opacity-100" else "opacity-0".

Inductive visibility : Type := shown | hidden.

Definition bar (s : state) : visibility :=
  if String.eqb (opacity s) "opacity-100" then shown else hidden.

End Nav.

(** ** Content loading (App.jsx 121-133, 188-197, 222-227) *)
Module Loader.

(** How a [fetch] call ends: the promise rejects (the server cannot be
    reached), or it fulfils with a response of some HTTP status whose body
    is JSON text for [parsed], or is not JSON text at all. *)
Inductive outcome : Type :=
  | Unreachable
  | Response (status : Z) (parsed : option JS.value).

(** The collections held in React state cells of the three sections, and
    the log of the requests issued so far. *)
Record page : Type := mk_page {
  items : JS.value;      (* Projects, line 122 *)
  xp : JS.value;         (* Experience, line 189 *)
  edu : JS.value;        (* Experience, line 190 *)
  posts : JS.value;      (* Blog, line 223 *)
  requests : list string;
}.

(** [useState([])] four times, nothing requested yet. *)
Definition init : page :=
  {| items := JS.Arr []; xp := JS.Arr []; edu := JS.Arr []; posts := JS.Arr [];
     requests := [] |}.

(** A promise-returning computation: it may change the page and settles
    as fulfilled ([JS.Normal]) or rejected ([JS.Throw]). *)
Definition promise (A : Type) : Type := page -> JS.completion A * page.

Definition resolve {A} (a : A) : promise A := fun s => (JS.Normal a, s).

Definition reject {A} (e : JS.error) : promise A := fun s => (JS.Throw e, s).

(** [p.then(f)], and [await] inside an async function. *)
Definition and_then {A B} (p : promise A) (f : A -> promise B) : promise B :=
  fun s =>
    match p s with
    | (JS.Normal a, s') => f a s'
    | (JS.Throw e, s') => (JS.Throw e, s')
    end.

(** [p.catch(h)], and [try { p } catch (e) { h }]. *)
Definition catch {A} (p : promise A) (h : JS.error -> promise A) : promise A :=
  fun s =>
    match p s with
    | (JS.Normal a, s') => (JS.Normal a, s')
    | (JS.Throw e, s') => h e s'
    end.

(** [Promise.all([p, q])]: both computations have been started when the
    array is built, so [q] runs whatever [p] does; the result rejects if
    one of them does. *)
Definition all2 {A B} (p : promise A) (q : promise B) : promise (A * B) :=
  fun s =>
    let '(a, s1) := p s in
    let '(b, s2) := q s1 in
    match a, b with
    | JS.Normal x, JS.Normal y => (JS.Normal (x, y), s2)
    | JS.Throw e, _ => (JS.Throw e, s2)
    | _, JS.Throw e => (JS.Throw e, s2)
    end.

Notation "x <- p ;; q" := (and_then p (fun x => q))
  (at level 100, p at next level, right associativity).

(** The state setters. *)
Definition setItems (v : JS.value) : promise unit := fun s =>
  (JS.Normal tt,
   {| items := v; xp := xp s; edu := edu s; posts := posts s; requests := requests s |}).

Definition setXp (v : JS.value) : promise unit := fun s =>
  (JS.Normal tt,
   {| items := items s; xp := v; edu := edu s; posts := posts s; requests := requests s |}).

Definition setEdu (v : JS.value) : promise unit := fun s =>
  (JS.Normal tt,
   {| items := items s; xp := xp s; edu := v; posts := posts s; requests := requests s |}).

Definition setPosts (v : JS.value) : promise unit := fun s =>
  (JS.Normal tt,
   {| items := items s; xp := xp s; edu := edu s; posts := v; requests := requests s |}).

Section Environment.

(** [import.meta.env.VITE_BACKEND_URL], a string or undefined. *)
Variable VITE_BACKEND_URL : option string.

(** The network: how a request to a URL ends. *)
Variable net : string -> outcome.

(** [fetch(url)]: the request is issued, whatever comes of it. *)
Definition fetch (url : string) : promise (Z * option JS.value) := fun s =>
  (match net url with
   | Unreachable => JS.Throw JS.NetworkFailure
   | Response status parsed => JS.Normal (status, parsed)
   end,
   {| items := items s; xp := xp s; edu := edu s; posts := posts s;
      requests := requests s ++ [url] |}).

(** [r.json()]: the status is not looked at. *)
Definition json (r : Z * option JS.value) : promise JS.value :=
  match snd r with
  | Some v => resolve v
  | None => reject JS.SyntaxError
  end.

(** Projects, lines 124-132. *)
Definition load : promise unit :=
  catch
    (base <- resolve (JS.or_str VITE_BACKEND_URL "") ;;
     res <- fetch (base ++ "/api/projects") ;;
     data <- json res ;;
     setItems data)
    (fun _ => resolve tt).

(** Experience, lines 192-196. *)
Definition load_experience : promise unit :=
  let base := JS.or_str VITE_BACKEND_URL "" in
  ab <- all2
    (catch (and_then (fetch (base ++ "/api/experience")) json)
           (fun _ => resolve (JS.Arr [])))
    (catch (and_then (fetch (base ++ "/api/education")) json)
           (fun _ => resolve (JS.Arr []))) ;;
  _ <- setXp (fst ab) ;;
  setEdu (snd ab).

(** Blog, lines 225-226. *)
Definition load_posts : promise unit :=
  let base := JS.or_str VITE_BACKEND_URL "" in
  catch (and_then (and_then (fetch (base ++ "/api/posts")) json) setPosts)
        (fun _ => resolve tt).

(** The page mounts: the effects of Projects, Experience and Blog run in
    the order of the sections (lines 271-273).  The result keeps how each
    of the three promises settled. *)
Definition mount : list (JS.completion unit) * page :=
  let '(r1, s1) := load init in
  let '(r2, s2) := load_experience s1 in
  let '(r3, s3) := load_posts s2 in
  ([r1; r2; r3], s3).

End Environment.

(** The four collections, the endpoint each is read from, and the state
    cell each is kept in. *)
Inductive collection : Type := projects | experience | education | blog_posts.

Definition endpointName (c : collection) : string :=
  match c with
  | projects => "projects"
  | experience => "experience"
  | education => "education"
  | blog_posts => "posts"
  end.

(** The URL of a collection under a base: [<base>/api/<endpointName>]. *)
Definition endpoint_url (base : string) (c : collection) : string :=
  base ++ "/api/" ++ endpointName c.

(** [Response.ok]: a status from 200 to 299. *)
Definition ok (status : Z) : bool := ((200 <=? status) && (status <=? 299))%Z.

(** The outcomes after which the chain [fetch(..).then(r => r.json())]
    rejects: no response, or a body that is not JSON. *)
Definition rejects (o : outcome) : bool :=
  match o with
  | Unreachable => true
  | Response _ None => true
  | Response _ (Some _) => false
  end.

(** A failed fetch in the words of the specification: a network error, a
    body that is not JSON, or a status that is not a success. *)
Definition failed (o : outcome) : bool :=
  match o with
  | Unreachable => true
  | Response status parsed => negb (ok status) || negb (bool_decide (is_Some parsed))
  end.

(** What the chain [fetch(..).then(r => r.json()).catch(() => [])] settles
    to after an outcome: the parsed body, or the empty list. *)
Definition settled_body (o : outcome) : JS.value :=
  match o with
  | Response _ (Some v) => v
  | _ => JS.Arr []
  end.

(** A network on which every request is answered 404 with the JSON body
    [{"detail": "Not Found"}]. *)
Definition not_found (url : string) : outcome :=
  Response 404 (Some (JS.Obj {["detail" := JS.Str "Not Found"]})).

Definition cell (c : collection) (s : page) : JS.value :=
  match c with
  | projects => items s
  | experience => xp s
  | education => edu s
  | blog_posts => posts s
  end.

End Loader.

(** ** Rendering of the content sections (App.jsx 111-119, 134-150,
       198-219, 228-241)

    A component's result is the element tree its JSX builds.  A child
    position holds either a JavaScript value (React shows strings and
    numbers as text and shows nothing for false, null and undefined) or an
    element. *)
Module Render.

Import JS.

Inductive control : Type := Live | Repo.

Inductive child : Type :=
  | Value (v : value)                       (* a value in child position *)
  | Anchor (href : value) (kind : control). (* <a href=..> Live / Repo </a> *)

(** Lines 138-146: the article of one project. *)
Record project_item : Type := mk_project_item {
  project_key : value;
  project_title : value;
  project_summary : value;
  project_links : list child;
}.

Definition render_project (p : value) : completion project_item :=
  bind (get p "slug") (fun slug =>
  bind (get p "title") (fun title =>
  bind (get p "summary") (fun summary =>
  bind (get p "demo_url") (fun demo_url =>
  bind (get p "repo_url") (fun repo_url =>
  Normal {| project_key := slug;
            project_title := title;
            project_summary := summary;
            project_links :=
              [ and_then Value demo_url (Anchor demo_url Live);
                and_then Value repo_url (Anchor repo_url Repo) ] |}))))).

(** Line 137: [items.map(...)]. *)
Definition render_projects (items : value) : completion (list project_item) :=
  map items render_project.

Definition is_anchor (k : control) (c : child) : bool :=
  match c, k with
  | Anchor _ Live, Live | Anchor _ Repo, Repo => true
  | _, _ => false
  end.

(** Whether the item shows a control of the given kind. *)
Definition has_control (k : control) (it : project_item) : bool :=
  existsb (is_anchor k) (project_links it).

(** A field of a record is set, in the words of the specification: reading
    it gives something other than undefined and null. *)
Definition is_set (p : value) (k : string) : bool :=
  match get p k with
  | Normal Undefined | Normal Null | Throw _ => false
  | Normal _ => true
  end.

(** Lines 111-119, Chips: one span per element, the element being its key,
    its label and its text. *)
Record chip : Type := mk_chip {
  chip_key : value;
  chip_label : value;
  chip_text : value;
}.

Definition Chips (items : value) : completion (list chip) :=
  map items (fun t => Normal {| chip_key := t; chip_label := t; chip_text := t |}).

(** Lines 232-237: the article of one post. *)
Record post_item : Type := mk_post_item {
  post_key : value;
  post_title : value;
  post_read_time : value;
  post_excerpt : value;
  post_chips : list chip;
}.

Definition render_post (p : value) : completion post_item :=
  bind (get p "id") (fun id =>
  bind (get p "title") (fun title =>
  bind (get p "read_time") (fun read_time =>
  bind (get p "excerpt") (fun excerpt =>
  bind (get p "tags") (fun tags =>
  bind (Chips (or tags (Arr []))) (fun chips =>
  Normal {| post_key := id;
            post_title := title;
            post_read_time := read_time;
            post_excerpt := excerpt;
            post_chips := chips |})))))).

(** Line 231: [posts.map(...)]. *)
Definition render_posts (posts : value) : completion (list post_item) :=
  map posts render_post.

(** Lines 205 and 213: one entry of the experience and of the education
    list; [what] is the role or the degree, [place] the org or the
    school. *)
Record entry_item : Type := mk_entry_item {
  entry_key : value;
  entry_start : value;
  entry_end : value;
  entry_what : value;
  entry_place : value;
  entry_summary : value;
}.

Definition render_entry (what place : string) (i : value) : completion entry_item :=
  bind (get i "id") (fun id =>
  bind (get i "start") (fun start =>
  bind (get i "end") (fun end_ =>
  bind (get i what) (fun w =>
  bind (get i place) (fun pl =>
  bind (get i "summary") (fun summary =>
  Normal {| entry_key := id;
            entry_start := start;
            entry_end := end_;
            entry_what := w;
            entry_place := pl;
            entry_summary := summary |})))))).

(** Lines 204 and 212. *)
Definition render_xp (xp : value) : completion (list entry_item) :=
  map xp (render_entry "role" "org").

Definition render_edu (edu : value) : completion (list entry_item) :=
  map edu (render_entry "degree" "school").

(** The record of the scenario, and one whose demo_url is the empty
    string. *)
Definition portfolio : value :=
  Obj (<["slug" := Str "a"]> (<["title" := Str "Portfolio"]>
      (<["summary" := Str "x"]> {["demo_url" := Str "https://e.com"]}))).

Definition empty_demo : value :=
  Obj (<["slug" := Str "a"]> (<["title" := Str "Portfolio"]>
      (<["summary" := Str "x"]> {["demo_url" := Str ""]}))).

End Render.

(** ** Nav: what the bar renders, and the events it reacts to *)
Module NavView.

Inductive icon : Type := Sun | Moon.

Inductive menu_icon : Type := X | Menu.

(** Lines 64 and 77: [theme === 'dark' ? <Sun/> : <Moon/>]. *)
Definition theme_icon (theme : string) : icon :=
  if String.eqb theme "dark" then Sun else Moon.

(** Lines 45-51: id and label of each entry. *)
Definition items : list (string * string) :=
  [ ("about", "About"); ("stack", "Tech"); ("projects", "Projects");
    ("xp", "Experience"); ("blog", "Insights") ].

Record link : Type := mk_link {
  link_key : string;
  link_href : string;
  link_label : string;
}.

(** Lines 59 and 74: the key is the id and the target is [`#${it.id}`]. *)
Definition link_of (it : string * string) : link :=
  {| link_key := it.1; link_href := "#" ++ it.1; link_label := it.2 |}.

(** A theme button (lines 63-65 and 76-78): the icon it shows and the value
    its onClick passes to [setTheme]. *)
Record theme_button : Type := mk_theme_button {
  button_icon : icon;
  button_sets : string;
}.

Definition theme_button_of (theme : string) : theme_button :=
  {| button_icon := theme_icon theme; button_sets := Theme.toggle theme |}.

(** Lines 53-82: the bar's class, the row of the wide layout, the icon of
    the menu button, and the panel, which is there only when [open]. *)
Record view : Type := mk_view {
  view_class : string;
  view_row : list link;
  view_row_button : theme_button;
  view_menu_icon : menu_icon;
  view_panel : option (list link * theme_button);
}.

Definition render (theme : string) (s : Nav.state) : view :=
  {| view_class := Nav.opacity s;
     view_row := link_of <$> items;
     view_row_button := theme_button_of theme;
     view_menu_icon := if Nav.open s then X else Menu;
     view_panel :=
       if Nav.open s then Some (link_of <$> items, theme_button_of theme) else None |}.

(** The events of the bar: a scroll event with the new [window.scrollY], a
    click on the menu button, a click on a link of the panel. *)
Inductive event : Type :=
  | Scroll (y : Z)
  | ClickMenu
  | ClickItem.

Definition step (s : Nav.state) (e : event) : Nav.state :=
  match e with
  | Scroll y => Nav.onScroll y s
  | ClickMenu => Nav.click_menu s
  | ClickItem => Nav.click_item s
  end.

Definition run (s : Nav.state) (evs : list event) : Nav.state := foldl step s evs.

Definition is_scroll (e : event) : bool :=
  match e with Scroll _ => true | _ => false end.

(** The offsets of the scroll events of a trace, in order. *)
Definition offsets (evs : list event) : list Z :=
  omap (fun e => match e with Scroll y => Some y | _ => None end) evs.

End NavView.

(** ** App (App.jsx 250-263): the pointer dot *)
Module App.

(** Lines 5-8. *)
Definition accents : gmap string (gmap string string) :=
  {[ "light" := {[ "violet" := "#7C3AED"; "mint" := "#10B981"; "orange" := "#F97316" ]};
     "dark" := {[ "violet" := "#A78BFA"; "mint" := "#34D399"; "orange" := "#FB923C" ]} ]}.

(** The children of [document.body]: the nodes that were there, and the
    dots, each named by the number of elements created before it. *)
Inductive node : Type :=
  | Foreign (tag : string)
  | Dot (n : nat).

#[global] Instance node_eq_dec : EqDecision node.
Proof. solve_decision. Defined.

(** The two style properties the code sets; the transform is kept as the
    pair of offsets of [translate(<x>px, <y>px)]. *)
Record style : Type := mk_style {
  transform : option (Z * Z);
  background : option string;
}.

(** The part of the document the effect touches.  A pointermove listener
    is a [move] closure: it is known by the dot and the theme it has
    captured. *)
Record dom : Type := mk_dom {
  body : list node;
  listeners : list (nat * string);
  styles : gmap nat style;
  created : nat;
}.

(** Line 258: [theme === 'dark' ? '#A78BFA' : '#7C3AED']. *)
Definition dot_colour (theme : string) : string :=
  if String.eqb theme "dark" then "#A78BFA" else "#7C3AED".

(** Lines 256-259, [move] for a pointer at [(x, y)]. *)
Definition move (dot : nat) (theme : string) (x y : Z) (d : dom) : dom :=
  {| body := body d;
     listeners := listeners d;
     styles := <[dot := {| transform := Some (x, y);
                           background := Some (dot_colour theme) |}]> (styles d);
     created := created d |}.

(** Lines 253-261, the body of the effect; [reduced] is what the
    reduced-motion query answers.  The result names the new dot, which is
    what the cleanup closure holds. *)
Definition effect (theme : string) (reduced : bool) (d : dom) : nat * dom :=
  let dot := created d in
  (dot,
   {| body := body d ++ [Dot dot];
      listeners := if negb reduced then listeners d ++ [(dot, theme)] else listeners d;
      styles := <[dot := {| transform := None; background := None |}]> (styles d);
      created := S (created d) |}).

(** Line 262, the cleanup: the listener of this run is removed, if it is
    registered, and the dot leaves the body. *)
Definition cleanup (dot : nat) (d : dom) : dom :=
  {| body := filter (fun n => n <> Dot dot) (body d);
     listeners := filter (fun l => l.1 <> dot) (listeners d);
     styles := styles d;
     created := created d |}.

(** A pointermove event: every registered listener runs. *)
Definition pointermove (x y : Z) (d : dom) : dom :=
  foldl (fun d' l => move l.1 l.2 x y d') d (listeners d).

(** The component: the theme hook, the document, and the dot of the
    effect's last run. *)
Record state : Type := mk_state {
  hook : Theme.state;
  document : dom;
  dot : nat;
}.

(** The first render and the effects after it, in a document whose body
    holds the nodes [tags]. *)
Definition mount (st : gmap string string) (cl : list string) (prefersDark : bool)
    (reduced : bool) (tags : list string) : state :=
  let h := Theme.mount st cl prefersDark in
  let r := effect (Theme.theme h) reduced
             {| body := Foreign <$> tags; listeners := []; styles := ∅; created := 0 |} in
  {| hook := h; document := r.2; dot := r.1 |}.

(** What happens to the mounted component: an event of the theme hook
    ([reduced] is the query's answer should the effect run again), or a
    pointer move. *)
Inductive event : Type :=
  | ThemeEvent (e : Theme.event) (reduced : bool)
  | PointerMove (x y : Z).

(** The effect has [theme] as its dependency: when an event leaves the
    theme as it is nothing runs; when the theme changes, the cleanup of the
    last run and then the effect run. *)
Definition step (a : state) (ev : event) : state :=
  match ev with
  | ThemeEvent e reduced =>
      let h := Theme.step (hook a) e in
      if String.eqb (Theme.theme h) (Theme.theme (hook a))
      then {| hook := h; document := document a; dot := dot a |}
      else
        let r := effect (Theme.theme h) reduced (cleanup (dot a) (document a)) in
        {| hook := h; document := r.2; dot := r.1 |}
  | PointerMove x y =>
      {| hook := hook a; document := pointermove x y (document a); dot := dot a |}
  end.

Definition run (a : state) (evs : list event) : state := foldl step a evs.

(** Unmounting runs the cleanup of the last run. *)
Definition unmount (a : state) : dom := cleanup (dot a) (document a).

End App.

(** ** Invariants of the mounted theme hook *)
Module ThemeInv.

(** The theme of a mounted hook is the initial one or a theme value, and
    the root's classes are the current theme and the classes that are
    neither "light" nor "dark" among the initial ones and the initial
    theme. *)
Definition root_classes_inv (t0 : string) (cl : list string) (s : Theme.state) : Prop :=
  (Theme.theme s = t0 \/ Theme.theme s = "light" \/ Theme.theme s = "dark")
  /\ forall c, c ∈ Theme.classes s <->
       c = Theme.theme s \/ (c <> "light" /\ c <> "dark" /\ (c ∈ cl \/ c = t0)).

End ThemeInv.

(** ** What React does with the element trees

    The component functions of [Render] build element trees.  When React
    commits a tree it looks at every value in child position: a string or
    a number becomes text, a boolean, null and undefined show nothing, an
    array stands for its elements, and any other object makes React throw
    ("Objects are not valid as a React child").  App.jsx has no error
    boundary, so an exception in one component's render is an exception of
    the whole of [App]. *)
Module React.

Import JS Render.

Fixpoint valid_child (v : value) : bool :=
  match v with
  | Arr xs => forallb valid_child xs
  | Obj _ => false
  | _ => true
  end.

(** A child of the link row (lines 143-144): the falsy value left by [&&],
    or the anchor, whose own children are an icon and a fixed text. *)
Definition child_ok (c : child) : bool :=
  match c with
  | Value v => valid_child v
  | Anchor _ _ => true
  end.

(** Lines 140-145: the children [{p.title}], [{p.summary}] and the link
    row. *)
Definition project_ok (it : project_item) : bool :=
  valid_child (project_title it) && valid_child (project_summary it)
  && forallb child_ok (project_links it).

(** Lines 205 and 213: [{i.start}], [{i.end}], the role or degree, the org
    or school, [{i.summary}]. *)
Definition entry_ok (it : entry_item) : bool :=
  valid_child (entry_start it) && valid_child (entry_end it)
  && valid_child (entry_what it) && valid_child (entry_place it)
  && valid_child (entry_summary it).

(** Lines 233-236 and 115: [{p.title}], [{p.read_time}], [{p.excerpt}], and
    [{t}] in every chip. *)
Definition post_ok (it : post_item) : bool :=
  valid_child (post_title it) && valid_child (post_read_time it)
  && valid_child (post_excerpt it)
  && forallb (fun c => valid_child (chip_text c)) (post_chips it).

(** Committing the items a [.map] has built: nothing is shown when the
    [.map] has thrown or when React throws on one of the items. *)
Definition commit {A} (ok : A -> bool) (r : completion (list A)) : option (list A) :=
  match r with
  | Normal l => if forallb ok l then Some l else None
  | Throw _ => None
  end.

(** Projects, lines 134-150. *)
Definition Projects (s : Loader.page) : option (list project_item) :=
  commit project_ok (render_projects (Loader.items s)).

(** Experience, lines 198-219: one component for both lists. *)
Definition Experience (s : Loader.page) : option (list entry_item * list entry_item) :=
  match commit entry_ok (render_xp (Loader.xp s)),
        commit entry_ok (render_edu (Loader.edu s)) with
  | Some a, Some b => Some (a, b)
  | _, _ => None
  end.

(** Blog, lines 228-241. *)
Definition Blog (s : Loader.page) : option (list post_item) :=
  commit post_ok (render_posts (Loader.posts s)).

(** What the page shows of the four collections. *)
Record shown : Type := mk_shown {
  shown_projects : list project_item;
  shown_xp : list entry_item;
  shown_edu : list entry_item;
  shown_posts : list post_item;
}.

(** App, lines 271-273: the three components one after the other; the page
    is there only if each of them renders. *)
Definition page (s : Loader.page) : option shown :=
  match Projects s, Experience s, Blog s with
  | Some ps, Some (xs, es), Some bs =>
      Some {| shown_projects := ps; shown_xp := xs; shown_edu := es; shown_posts := bs |}
  | _, _, _ => None
  end.

(** The number of items the page shows for a collection. *)
Definition count (c : Loader.collection) (v : shown) : nat :=
  match c with
  | Loader.projects => length (shown_projects v)
  | Loader.experience => length (shown_xp v)
  | Loader.education => length (shown_edu v)
  | Loader.blog_posts => length (shown_posts v)
  end.

End React.

(** ** The theme effect on the DOM's own terms

    [classList.add] throws on a token the DOM does not accept: a
    SyntaxError on the empty string, an InvalidCharacterError on a token
    with ASCII whitespace in it.  The effect of lines 13-18 then stops
    after [classList.remove] and before [localStorage.setItem]. *)
Module ThemeDom.

Inductive exception : Type := SyntaxError | InvalidCharacterError.

(** Tab, line feed, form feed, carriage return, space. *)
Definition is_space (a : Ascii.ascii) : bool :=
  let n := Ascii.nat_of_ascii a in
  (n =? 9)%nat || (n =? 10)%nat || (n =? 12)%nat || (n =? 13)%nat || (n =? 32)%nat.

Fixpoint has_space (s : string) : bool :=
  match s with
  | EmptyString => false
  | String a rest => is_space a || has_space rest
  end.

(** [classList.add(c)]. *)
Definition classList_add (c : string) (cl : list string) : exception + list string :=
  if String.eqb c "" then inl SyntaxError
  else if has_space c then inl InvalidCharacterError
  else inr (Theme.classList_add c cl).

(** How a run of the effect ends: it has run through, or it has thrown and
    left the state the throw found. *)
Inductive ending : Type :=
  | Applied (s : Theme.state)
  | Thrown (e : exception) (s : Theme.state).

(** Lines 13-18. *)
Definition apply_theme (s : Theme.state) : ending :=
  let removed := Theme.classList_remove ["light"; "dark"] (Theme.classes s) in
  match classList_add (Theme.theme s) removed with
  | inr cl =>
      Applied {| Theme.theme := Theme.theme s;
                 Theme.storage := Theme.setItem (Theme.storage s) "theme" (Theme.theme s);
                 Theme.classes := cl |}
  | inl e =>
      Thrown e {| Theme.theme := Theme.theme s;
                  Theme.storage := Theme.storage s;
                  Theme.classes := removed |}
  end.

(** The initialiser, the first render, then the effect. *)
Definition mount (st : gmap string string) (cl : list string) (prefersDark : bool) : ending :=
  apply_theme {| Theme.theme := Theme.resolve st prefersDark;
                 Theme.storage := st;
                 Theme.classes := cl |}.

End ThemeDom.

(** ** The scroll delta of an event *)
Module ScrollDelta.

(** The vertical offset the page had before a scroll event: the offset of
    the scroll event before it or, for the first event after the bar has
    mounted, the offset [y0] the page had at mount. *)
Definition previous_offset (y0 : Z) (evs : list NavView.event) : Z :=
  default y0 (last (NavView.offsets evs)).

(** The delta of a scroll event to offset [y] that follows the events
    [evs]: negative is upward. *)
Definition delta (y0 : Z) (evs : list NavView.event) (y : Z) : Z :=
  (y - previous_offset y0 evs)%Z.

End ScrollDelta.

(** ** Networks that differ in one answer *)
Module Net.

(** The network [net], except that the request to [url] ends as [o]. *)
Definition with_answer (net : string -> Loader.outcome) (url : string)
    (o : Loader.outcome) : string -> Loader.outcome :=
  fun u => if String.eqb u url then o else net u.

(** The answer of a backend that has no record: status 200, body [[]]. *)
Definition empty_list : Loader.outcome := Loader.Response 200 (Some (JS.Arr [])).

End Net.

(** ** Shapes of values, for stating what rendering accepts *)
Module Shape.

Import JS.

(** The values whose properties cannot be read. *)
Definition nullish (v : value) : bool :=
  match v with Undefined | Null => true | _ => false end.


Definition is_object (v : value) : bool :=
  match v with Obj _ => true | _ => false end.







End Shape.

(** * Properties *)

(** ** Theme *)
Module ThemeFacts.

Import Theme.

Lemma name_nonempty p : name p <> "".
Proof. by destruct p. Qed.

Lemma of_matches_nonempty b : of_matches b <> "".
Proof. by destruct b. Qed.

Lemma toggle_nonempty t : toggle t <> "".
Proof. unfold toggle. by destruct (String.eqb t "dark"). Qed.

Lemma eqb_empty_false s : s <> "" -> String.eqb s "" = false.
Proof. intros H. by apply String.eqb_neq. Qed.

Lemma or_str_nonempty o d : d <> "" -> JS.or_str o d <> "".
Proof.
  intros Hd. destruct o as [s|]; simpl; [|done].
  destruct (String.eqb s "") eqn:E; simpl; [done|].
  by apply String.eqb_neq.
Qed.

Lemma resolve_nonempty st os : resolve st os <> "".
Proof. apply or_str_nonempty, of_matches_nonempty. Qed.

(** The initialiser takes a truthy stored string as it is. *)
Lemma resolve_stored st os v :
  st !! "theme" = Some v -> v <> "" -> resolve st os = v.
Proof.
  intros Hst Hv. unfold resolve, getItem. rewrite Hst. simpl.
  by rewrite (eqb_empty_false _ Hv).
Qed.

(** With nothing stored it follows the media query. *)
Lemma resolve_absent st os : st !! "theme" = None -> resolve st os = of_matches os.
Proof. intros Hst. unfold resolve, getItem. by rewrite Hst. Qed.

(** The effect stores the theme it is run with. *)
Lemma apply_theme_persisted s : theme s <> "" -> persisted (apply_theme s).
Proof.
  intros H. split; [|exact H].
  unfold apply_theme, getItem, setItem; simpl. apply lookup_insert_eq.
Qed.

Lemma mount_persisted st cl os : persisted (mount st cl os).
Proof. apply apply_theme_persisted. simpl. apply resolve_nonempty. Qed.

Lemma setTheme_persisted t s : t <> "" -> persisted s -> persisted (setTheme t s).
Proof.
  intros Ht Hs. unfold setTheme.
  destruct (String.eqb t (theme s)); [exact Hs|].
  by apply apply_theme_persisted.
Qed.

Lemma setTheme_theme t s : theme (setTheme t s) = t.
Proof.
  unfold setTheme. destruct (String.eqb t (theme s)) eqn:E; [|done].
  symmetry. by apply String.eqb_eq.
Qed.

(** Once the theme is stored, the listener's guard is false. *)
Lemma handler_persisted b s : persisted s -> handler b s = s.
Proof.
  intros [Hst Hne]. unfold handler. rewrite Hst. simpl.
  by rewrite (eqb_empty_false _ Hne).
Qed.

(** The listener does follow the media query in a state where nothing is
    stored. *)
Lemma handler_unstored b s :
  getItem (storage s) "theme" = None -> theme (handler b s) = of_matches b.
Proof.
  intros Hst. unfold handler. rewrite Hst. simpl. apply setTheme_theme.
Qed.

Lemma step_persisted s e : persisted s -> persisted (step s e).
Proof.
  intros Hs. destruct e as [p| |b]; simpl.
  - apply setTheme_persisted; [apply name_nonempty|exact Hs].
  - apply setTheme_persisted; [apply toggle_nonempty|exact Hs].
  - by rewrite handler_persisted.
Qed.

Lemma run_persisted evs : forall s, persisted s -> persisted (run s evs).
Proof.
  induction evs as [|e evs IH]; intros s Hs; [exact Hs|].
  simpl. apply IH. by apply step_persisted.
Qed.

Lemma run_app s evs1 evs2 : run s (evs1 ++ evs2) = run (run s evs1) evs2.
Proof. unfold run. apply foldl_app. Qed.

Lemma run_os_changes bs : forall s, persisted s -> run s (OsChange <$> bs) = s.
Proof.
  induction bs as [|b bs IH]; intros s Hs; [done|].
  simpl. rewrite (handler_persisted _ _ Hs). by apply IH.
Qed.

(** C4.  The initial theme is the stored preference when there is one and
    the operating system's signal otherwise, whatever else the storage
    holds: this is so for the initialiser of line 12 and for the theme of
    the mounted hook.  Spelled out: "light" stored gives "light" and "dark"
    stored gives "dark" for either signal; nothing stored gives "dark" for
    a dark system and "light" for a light one. *)
Theorem initial_theme_prefers_stored
    (st : gmap string string) (cl : list string) (p : preference) (os : bool) :
  resolve (<["theme" := name p]> st) os = name p
  /\ resolve (delete "theme" st) os = of_matches os
  /\ theme (mount (<["theme" := name p]> st) cl os) = name p
  /\ theme (mount (delete "theme" st) cl os) = of_matches os
  /\ resolve ∅ true = "dark"
  /\ resolve {["theme" := "light"]} true = "light"
  /\ resolve (<["theme" := "light"]> st) os = "light"
  /\ resolve (<["theme" := "dark"]> st) os = "dark"
  /\ resolve (delete "theme" st) true = "dark"
  /\ resolve (delete "theme" st) false = "light"
  /\ theme (mount (<["theme" := "light"]> st) cl os) = "light"
  /\ theme (mount (<["theme" := "dark"]> st) cl os) = "dark"
  /\ theme (mount (delete "theme" st) cl true) = "dark"
  /\ theme (mount (delete "theme" st) cl false) = "light".
Proof.
  assert (Hs : forall q, resolve (<["theme" := name q]> st) os = name q).
  { intros q. apply resolve_stored; [apply lookup_insert_eq|apply name_nonempty]. }
  assert (Ha : forall b, resolve (delete "theme" st) b = of_matches b).
  { intros b. apply resolve_absent, lookup_delete_eq. }
  pose proof (Hs light) as Hl. pose proof (Hs dark) as Hd.
  pose proof (Ha true) as Ht. pose proof (Ha false) as Hf.
  repeat split; try apply Hs; try apply Ha; try assumption; reflexivity.
Qed.

(** C3.  Mounting the hook with no stored preference takes the operating
    system's signal as the theme, and the effect of lines 13-18 then
    writes that derived value under the key: afterwards the storage is the
    old one with "theme" set, not the old one.  With an empty storage and a
    dark system the storage ends up holding "dark". *)
Theorem mount_stores_derived_theme
    (st : gmap string string) (cl : list string) (os : bool) :
  getItem (delete "theme" st) "theme" = None
  /\ theme (mount (delete "theme" st) cl os) = of_matches os
  /\ storage (mount (delete "theme" st) cl os) = <["theme" := of_matches os]> st
  /\ getItem (storage (mount ∅ [] true)) "theme" = Some "dark".
Proof.
  split; [apply lookup_delete_eq|].
  split; [simpl; apply resolve_absent, lookup_delete_eq|].
  split; [|reflexivity].
  unfold mount, apply_theme, setItem; simpl.
  rewrite (resolve_absent _ _ (lookup_delete_eq _ _)).
  apply insert_delete_eq.
Qed.

(** C2.  A change notification that reaches the listener of a mounted hook
    changes nothing, although setTheme has never been called: the mount
    effect has stored the theme, so the listener's guard is false.  With an
    empty storage and a light system, the notification that the system
    went dark leaves the theme light. *)
Theorem os_change_ignored_once_mounted
    (st : gmap string string) (cl : list string) (os b : bool) :
  handler b (mount st cl os) = mount st cl os
  /\ theme (mount ∅ [] false) = "light"
  /\ theme (step (mount ∅ [] false) (OsChange true)) = "light".
Proof.
  split; [apply handler_persisted, mount_persisted|].
  split; reflexivity.
Qed.

(** C5.  In every state reached through an explicit setTheme call, whatever
    happened before and after it, a change notification leaves the state
    as it is; and as long as only notifications follow the call, the theme
    is the one that was set. *)
Theorem explicit_preference_kept
    (st : gmap string string) (cl : list string) (os : bool)
    (evs1 evs2 : list event) (p : preference) (b : bool) (bs : list bool) :
  let s := run (mount st cl os) (evs1 ++ SetPreference p :: evs2) in
  step s (OsChange b) = s
  /\ theme (run (mount st cl os) (evs1 ++ SetPreference p :: (OsChange <$> bs)))
     = name p.
Proof.
  split.
  - simpl. apply handler_persisted, run_persisted, mount_persisted.
  - rewrite run_app. simpl.
    set (s0 := run (mount st cl os) evs1).
    assert (H0 : persisted s0) by apply run_persisted, mount_persisted.
    fold (run (setTheme (name p) s0) (OsChange <$> bs)).
    rewrite run_os_changes.
    + apply setTheme_theme.
    + apply setTheme_persisted; [apply name_nonempty|exact H0].
Qed.

(** C9.  On the two theme values the toggle's argument to setTheme is the
    other value, so toggling twice gives the value back; the same holds for
    the theme of a mounted hook after one and after two clicks. *)
Theorem toggle_involutive
    (p : preference) (st : gmap string string) (cl : list string) (os : bool) :
  toggle (name p) = name (opposite p)
  /\ toggle (toggle (name p)) = name p
  /\ theme (run (mount (<["theme" := name p]> st) cl os) [ClickToggle])
     = name (opposite p)
  /\ theme (run (mount (<["theme" := name p]> st) cl os) [ClickToggle; ClickToggle])
     = name p.
Proof.
  assert (Hm : theme (mount (<["theme" := name p]> st) cl os) = name p).
  { simpl. apply resolve_stored; [apply lookup_insert_eq|apply name_nonempty]. }
  split; [by destruct p|]. split; [by destruct p|].
  unfold run. cbn [foldl step]. rewrite !setTheme_theme, Hm. by destruct p.
Qed.

End ThemeFacts.

(** ** Navigation bar *)
Module NavFacts.

Import Nav.
Local Open Scope Z_scope.

Lemma bar_scrollUp s : bar s = if scrollUp s then shown else hidden.
Proof. unfold bar, opacity. by destruct (scrollUp s). Qed.

End NavFacts.

(** ** Section rendering *)
Module RenderFacts.

Import JS Render.

(** Reading a property of an object never throws. *)
Lemma get_obj props k : get (Obj props) k = Normal (default Undefined (props !! k)).
Proof. reflexivity. Qed.

(** The two children of the link row show a control of a kind exactly when
    the field tested for that kind is truthy. *)
Lemma link_row_controls demo repo k :
  existsb (is_anchor k)
    [ and_then Value demo (Anchor demo Live); and_then Value repo (Anchor repo Repo) ]
  = truthy (match k with Live => demo | Repo => repo end).
Proof.
  unfold and_then. simpl.
  by destruct k, (truthy demo), (truthy repo).
Qed.

Lemma render_project_obj props :
  render_project (Obj props) =
  Normal {| project_key := default Undefined (props !! "slug");
            project_title := default Undefined (props !! "title");
            project_summary := default Undefined (props !! "summary");
            project_links :=
              [ and_then Value (default Undefined (props !! "demo_url"))
                  (Anchor (default Undefined (props !! "demo_url")) Live);
                and_then Value (default Undefined (props !! "repo_url"))
                  (Anchor (default Undefined (props !! "repo_url")) Repo) ] |}.
Proof. reflexivity. Qed.

(** C7, as the code has it.  Rendering a project record never throws; the
    item shows the record's title and summary, a live-link control exactly
    when demo_url is truthy and a repo-link control exactly when repo_url
    is truthy.  For a string field that means a string other than the empty
    one, and an absent field gives no control.  The record of the scenario
    gives the title "Portfolio", a live link to its URL and no repo link. *)
Theorem project_links_follow_truthiness (props : gmap string value) (u : string) :
  (exists it, render_project (Obj props) = Normal it
     /\ project_title it = default Undefined (props !! "title")
     /\ project_summary it = default Undefined (props !! "summary")
     /\ has_control Live it = truthy (default Undefined (props !! "demo_url"))
     /\ has_control Repo it = truthy (default Undefined (props !! "repo_url")))
  /\ (exists it, render_project (Obj (<["demo_url" := Str u]> props)) = Normal it
     /\ has_control Live it = negb (String.eqb u ""))
  /\ (exists it, render_project (Obj (<["repo_url" := Str u]> props)) = Normal it
     /\ has_control Repo it = negb (String.eqb u ""))
  /\ (exists it, render_project (Obj (delete "demo_url" props)) = Normal it
     /\ has_control Live it = false)
  /\ (exists it, render_project (Obj (delete "repo_url" props)) = Normal it
     /\ has_control Repo it = false)
  /\ render_projects (Arr [portfolio]) =
     Normal [ {| project_key := Str "a";
                 project_title := Str "Portfolio";
                 project_summary := Str "x";
                 project_links := [ Anchor (Str "https://e.com") Live; Value Undefined ] |} ].
Proof.
  split.
  { eexists. split; [apply render_project_obj|].
    split; [reflexivity|]. split; [reflexivity|].
    unfold has_control; cbn [project_links].
    split; [apply (link_row_controls _ _ Live)|apply (link_row_controls _ _ Repo)]. }
  split.
  { eexists. split; [apply render_project_obj|].
    unfold has_control; cbn [project_links].
    rewrite (link_row_controls _ _ Live). by rewrite lookup_insert_eq. }
  split.
  { eexists. split; [apply render_project_obj|].
    unfold has_control; cbn [project_links].
    rewrite (link_row_controls _ _ Repo). by rewrite lookup_insert_eq. }
  split.
  { eexists. split; [apply render_project_obj|].
    unfold has_control; cbn [project_links].
    rewrite (link_row_controls _ _ Live). by rewrite lookup_delete_eq. }
  split.
  { eexists. split; [apply render_project_obj|].
    unfold has_control; cbn [project_links].
    rewrite (link_row_controls _ _ Repo). by rewrite lookup_delete_eq. }
  reflexivity.
Qed.

(** C7 fails for a field that is set to the empty string: the record has a
    demo_url, and its item has no live-link control. *)
Lemma empty_demo_url_gives_no_link :
  is_set empty_demo "demo_url" = true
  /\ (exists it, render_project empty_demo = Normal it /\ has_control Live it = false)
  /\ ~ (forall it, render_project empty_demo = Normal it ->
          (has_control Live it = true <-> is_set empty_demo "demo_url" = true)).
Proof.
  split; [reflexivity|].
  split; [eexists; split; reflexivity|].
  intros H. specialize (H _ eq_refl). destruct H as [_ H].
  specialize (H eq_refl). discriminate H.
Qed.

(** Chips of the empty list. *)
Lemma Chips_empty : Chips (Arr []) = Normal [].
Proof. reflexivity. Qed.

(** C10.  A post record without a tags field renders without an exception:
    the item has the record's id, title, reading time and excerpt as they
    are, and an empty list of chips. *)
Theorem post_without_tags (props : gmap string value) :
  props !! "tags" = None ->
  render_post (Obj props) =
  Normal {| post_key := default Undefined (props !! "id");
            post_title := default Undefined (props !! "title");
            post_read_time := default Undefined (props !! "read_time");
            post_excerpt := default Undefined (props !! "excerpt");
            post_chips := [] |}.
Proof.
  intros Htags. unfold render_post. rewrite !get_obj. cbn [bind].
  rewrite Htags. reflexivity.
Qed.

Lemma post_without_tags_witness :
  let props : gmap string value :=
    <["id" := Num 7]> (<["title" := Str "Notes"]>
      (<["read_time" := Num 4]> {["excerpt" := Str "On testing"]})) in
  props !! "tags" = None
  /\ render_post (Obj props) =
     Normal {| post_key := Num 7;
               post_title := Str "Notes";
               post_read_time := Num 4;
               post_excerpt := Str "On testing";
               post_chips := [] |}.
Proof.
  split; [reflexivity|].
  exact (post_without_tags
           (<["id" := Num 7]> (<["title" := Str "Notes"]>
              (<["read_time" := Num 4]> {["excerpt" := Str "On testing"]})))
           eq_refl).
Defined.

End RenderFacts.

(** ** Content loading *)
Module LoaderFacts.

Import JS Loader.

Lemma or_str_some s : or_str (Some s) "" = s.
Proof.
  simpl. destruct (String.eqb s "") eqn:E; simpl; [|done].
  apply String.eqb_eq in E. by subst.
Qed.

(** The page after its three effects have run: no promise is rejected, each
    cell holds what its own request settled to, and the four requests went
    out in the order of the sections. *)
Lemma mount_eq (env : option string) (net : string -> outcome) :
  let base := or_str env "" in
  mount env net =
  ([Normal tt; Normal tt; Normal tt],
   {| items := settled_body (net (base ++ "/api/projects"));
      xp := settled_body (net (base ++ "/api/experience"));
      edu := settled_body (net (base ++ "/api/education"));
      posts := settled_body (net (base ++ "/api/posts"));
      requests := [ base ++ "/api/projects"; base ++ "/api/experience";
                    base ++ "/api/education"; base ++ "/api/posts" ] |}).
Proof.
  intros base.
  unfold mount, load, load_experience, load_posts, all2, catch, and_then,
    fetch, json, resolve, reject, setItems, setXp, setEdu, setPosts, init.
  fold base. cbn [items xp edu posts requests app].
  destruct (net (base ++ "/api/projects")) as [|? [?|]];
  destruct (net (base ++ "/api/experience")) as [|? [?|]];
  destruct (net (base ++ "/api/education")) as [|? [?|]];
  destruct (net (base ++ "/api/posts")) as [|? [?|]];
  reflexivity.
Qed.

Lemma cell_mount env net c :
  cell c (snd (mount env net)) = settled_body (net (endpoint_url (or_str env "") c)).
Proof. rewrite mount_eq. by destruct c. Qed.

Lemma requests_mount env net :
  requests (snd (mount env net)) =
  endpoint_url (or_str env "") <$> [projects; experience; education; blog_posts].
Proof. rewrite mount_eq. reflexivity. Qed.

Lemma settled_body_rejects o : rejects o = true -> settled_body o = Arr [].
Proof. by destruct o as [|? [?|]]. Qed.

(** Distinct endpoints have distinct URLs under one base. *)
Lemma endpoint_url_inj base c1 c2 :
  endpoint_url base c1 = endpoint_url base c2 -> c1 = c2.
Proof.
  unfold endpoint_url. intros H. apply (inj (String.append base)) in H.
  by destruct c1, c2.
Qed.

(** Each endpoint's URL occurs once among the four. *)
Lemma count_endpoint_url base c :
  count_occ String.string_dec
    (endpoint_url base <$> [projects; experience; education; blog_posts])
    (endpoint_url base c) = 1.
Proof.
  destruct c; cbn [fmap list_fmap count_occ];
  repeat match goal with
  | |- context [String.string_dec ?a ?b] =>
      let E := fresh "E" in
      destruct (String.string_dec a b) as [E|E];
      [ apply endpoint_url_inj in E; try discriminate E; clear E
      | try (exfalso; apply E; reflexivity); clear E ]
  end;
  reflexivity.
Qed.

(** Answering a rejected request with the empty list instead changes
    nothing of what any of the four requests settles to. *)
Lemma settled_body_with_empty base net c c' :
  rejects (net (endpoint_url base c)) = true ->
  settled_body (Net.with_answer net (endpoint_url base c) Net.empty_list
                  (endpoint_url base c'))
  = settled_body (net (endpoint_url base c')).
Proof.
  intros Hrej. unfold Net.with_answer.
  destruct (String.eqb_spec (endpoint_url base c') (endpoint_url base c)) as [E|E]; [|done].
  apply endpoint_url_inj in E. subst c'. simpl.
  symmetry. by apply settled_body_rejects.
Qed.

Lemma page_empty_cell c s v :
  cell c s = Arr [] -> React.page s = Some v -> React.count c v = 0.
Proof.
  intros Hc Hp. unfold React.page in Hp.
  destruct (React.Projects s) as [ps|] eqn:EP; [|done].
  destruct (React.Experience s) as [[xs es]|] eqn:EE; [|done].
  destruct (React.Blog s) as [bs|] eqn:EB; [|done].
  injection Hp as <-. destruct c; cbn [cell] in Hc; cbn [React.count React.shown_projects
    React.shown_xp React.shown_edu React.shown_posts].
  - unfold React.Projects in EP. rewrite Hc in EP. cbn in EP. by injection EP as <-.
  - unfold React.Experience in EE. rewrite Hc in EE.
    destruct (React.commit React.entry_ok (Render.render_edu (edu s))) as [b|];
      cbn in EE; [|done].
    by injection EE as <- <-.
  - unfold React.Experience in EE. rewrite Hc in EE.
    destruct (React.commit React.entry_ok (Render.render_xp (xp s))) as [a|];
      cbn in EE; [|done].
    by injection EE as <- <-.
  - unfold React.Blog in EB. rewrite Hc in EB. cbn in EB. by injection EB as <-.
Qed.

(** C1, as the code has it.  When the request for a collection ends in a
    network error or in a body that is not JSON, whatever the status, none
    of the three effects ends in a rejected promise and the collection's
    cell holds the empty list after the page has mounted.  The whole state
    of the page, and with it what the page renders, is then what it is when
    that request is answered with status 200 and the empty list, the other
    requests ending as they do; and a page that renders shows no item of
    the collection. *)
Theorem rejected_fetch_gives_empty_list
    (env : option string) (net : string -> outcome) (c : collection) :
  rejects (net (endpoint_url (or_str env "") c)) = true ->
  let net0 := Net.with_answer net (endpoint_url (or_str env "") c) Net.empty_list in
  fst (mount env net) = [Normal tt; Normal tt; Normal tt]
  /\ cell c (snd (mount env net)) = Arr []
  /\ mount env net = mount env net0
  /\ React.page (snd (mount env net)) = React.page (snd (mount env net0))
  /\ (forall v, React.page (snd (mount env net)) = Some v -> React.count c v = 0).
Proof.
  intros Hrej net0.
  assert (Hcell : cell c (snd (mount env net)) = Arr []).
  { rewrite cell_mount. by apply settled_body_rejects. }
  assert (Hsame : mount env net = mount env net0).
  { rewrite !mount_eq. cbv zeta.
    pose proof (settled_body_with_empty (or_str env "") net c projects Hrej) as H1.
    pose proof (settled_body_with_empty (or_str env "") net c experience Hrej) as H2.
    pose proof (settled_body_with_empty (or_str env "") net c education Hrej) as H3.
    pose proof (settled_body_with_empty (or_str env "") net c blog_posts Hrej) as H4.
    fold net0 in H1, H2, H3, H4.
    change (endpoint_url (or_str env "") projects)
      with (or_str env "" ++ "/api/projects") in H1.
    change (endpoint_url (or_str env "") experience)
      with (or_str env "" ++ "/api/experience") in H2.
    change (endpoint_url (or_str env "") education)
      with (or_str env "" ++ "/api/education") in H3.
    change (endpoint_url (or_str env "") blog_posts)
      with (or_str env "" ++ "/api/posts") in H4.
    by rewrite H1, H2, H3, H4. }
  split; [by rewrite mount_eq|]. split; [exact Hcell|].
  split; [exact Hsame|]. split; [by rewrite Hsame|].
  intros v. by apply page_empty_cell.
Qed.

Lemma rejected_fetch_gives_empty_list_witness :
  rejects (Response 502 None) = true
  /\ cell blog_posts (snd (mount (Some "https://api.example") (fun _ => Response 502 None)))
     = Arr [].
Proof.
  split; [reflexivity|].
  exact (proj1 (proj2 (rejected_fetch_gives_empty_list
                         (Some "https://api.example") (fun _ => Response 502 None)
                         blog_posts eq_refl))).
Defined.

(** C1 fails for a response whose status is not a success and whose body
    is JSON: the status is never looked at, the parsed body becomes the
    section's state, and when that body is not a list [items.map] throws
    and the page does not render. *)
Lemma not_found_body_is_stored :
  failed (not_found "/api/projects") = true
  /\ fst (mount None not_found) = [Normal tt; Normal tt; Normal tt]
  /\ cell projects (snd (mount None not_found)) = Obj {["detail" := Str "Not Found"]}
  /\ cell projects (snd (mount None not_found)) <> Arr []
  /\ Render.render_projects (items (snd (mount None not_found))) = Throw TypeError
  /\ React.page (snd (mount None not_found)) = None.
Proof.
  split; [reflexivity|]. split; [reflexivity|]. split; [reflexivity|].
  split; [discriminate|]. split; reflexivity.
Qed.

(** C8.  With a base URL configured, mounting the page issues four
    requests, one to [<base>/api/<endpointName>] for each endpoint; with
    the base absent or empty they go to [/api/<endpointName>]. *)
Theorem one_request_per_endpoint
    (base : string) (net : string -> outcome) (c : collection) :
  requests (snd (mount (Some base) net))
    = endpoint_url base <$> [projects; experience; education; blog_posts]
  /\ count_occ String.string_dec
       (requests (snd (mount (Some base) net))) (base ++ "/api/" ++ endpointName c) = 1
  /\ requests (snd (mount None net))
    = ["/api/projects"; "/api/experience"; "/api/education"; "/api/posts"]
  /\ requests (snd (mount (Some "") net))
    = ["/api/projects"; "/api/experience"; "/api/education"; "/api/posts"]
  /\ count_occ String.string_dec
       (requests (snd (mount None net))) ("/api/" ++ endpointName c) = 1.
Proof.
  split; [by rewrite requests_mount, or_str_some|].
  split; [rewrite requests_mount, or_str_some; apply count_endpoint_url|].
  split; [by rewrite requests_mount|]. split; [by rewrite requests_mount|].
  rewrite requests_mount. apply (count_endpoint_url "" c).
Qed.

End LoaderFacts.

(** ** Theme: storage, root classes and the values of the theme *)
Module ThemeMore.

Import Theme ThemeInv.

Lemma elem_of_classList_add c c' cl : c' ∈ classList_add c cl <-> c' = c \/ c' ∈ cl.
Proof.
  unfold classList_add. destruct (decide (c ∈ cl)) as [Hin|Hout].
  - split; [by right|]. intros [->|H]; assumption.
  - rewrite elem_of_app, list_elem_of_singleton. tauto.
Qed.

Lemma elem_of_classList_remove toks c cl :
  c ∈ classList_remove toks cl <-> (c ∉ toks) /\ (c ∈ cl).
Proof. unfold classList_remove. by rewrite list_elem_of_filter. Qed.

Lemma elem_of_modes (c : string) : c ∈ ["light"; "dark"] <-> c = "light" \/ c = "dark".
Proof. rewrite !elem_of_cons, elem_of_nil. tauto. Qed.

Lemma name_mode p : name p = "light" \/ name p = "dark".
Proof. destruct p; auto. Qed.

Lemma toggle_mode t : toggle t = "light" \/ toggle t = "dark".
Proof. unfold toggle. destruct (String.eqb t "dark"); auto. Qed.

Lemma of_matches_mode b : of_matches b = "light" \/ of_matches b = "dark".
Proof. destruct b; auto. Qed.

(** Every event ends in the state it started in or in [setTheme] of one of
    the two theme values. *)
Lemma step_cases s e :
  step s e = s \/ exists t, (t = "light" \/ t = "dark") /\ step s e = setTheme t s.
Proof.
  destruct e as [p| |b]; simpl.
  - right. exists (name p). split; [apply name_mode|done].
  - right. exists (toggle (theme s)). split; [apply toggle_mode|done].
  - unfold handler. destruct (negb _); [|by left].
    right. exists (of_matches b). split; [apply of_matches_mode|done].
Qed.

(** An invariant of the mounted hook that every [setTheme] of a theme value
    keeps is kept by every trace of events. *)
Lemma run_invariant (P : state -> Prop) :
  (forall t s, (t = "light" \/ t = "dark") -> P s -> P (setTheme t s)) ->
  forall evs s, P s -> P (run s evs).
Proof.
  intros Hset. induction evs as [|e evs IH]; intros s Hs; [exact Hs|].
  simpl. apply IH.
  destruct (step_cases s e) as [->|(t & Ht & ->)]; [exact Hs|by apply Hset].
Qed.

Lemma setTheme_cases t s :
  setTheme t s = s \/
  setTheme t s = apply_theme {| theme := t; storage := storage s; classes := classes s |}.
Proof. unfold setTheme. destruct (String.eqb t (theme s)); auto. Qed.

(** X1.  In every state a mounted hook can reach, localStorage is the
    storage the page was opened with, with the key "theme" set to the
    current theme: the stored value follows the theme, and no other key is
    ever written or removed. *)
Theorem storage_is_initial_with_theme
    (st : gmap string string) (cl : list string) (os : bool) (evs : list event) :
  storage (run (mount st cl os) evs)
  = <["theme" := theme (run (mount st cl os) evs)]> st.
Proof.
  apply (run_invariant (fun s => storage s = <["theme" := theme s]> st)); [|done].
  intros t s _ Hs.
  destruct (setTheme_cases t s) as [->| ->]; [exact Hs|].
  unfold apply_theme, setItem; simpl. rewrite Hs. apply insert_insert_eq.
Qed.

Lemma apply_theme_classes c s :
  c ∈ classes (apply_theme s) <->
  c = theme s \/ (c <> "light" /\ c <> "dark" /\ c ∈ classes s).
Proof.
  unfold apply_theme; simpl.
  rewrite elem_of_classList_add, elem_of_classList_remove, elem_of_modes.
  tauto.
Qed.

Lemma root_classes_inv_run st cl os evs :
  root_classes_inv (resolve st os) cl (run (mount st cl os) evs).
Proof.
  apply run_invariant.
  - intros t s Ht [Hth Hcl].
    destruct (setTheme_cases t s) as [->| ->]; [by split|].
    split; [simpl; tauto|].
    intros c. rewrite apply_theme_classes. simpl. rewrite Hcl.
    intuition (subst; auto; congruence).
  - split; [by left|].
    intros c. unfold mount. rewrite apply_theme_classes. simpl.
    intuition (subst; auto).
Qed.

(** X2.  In every state a mounted hook can reach, the root element's class
    list holds the current theme; it holds "light" or "dark" only if that is
    the current theme; and a class that is neither is on the root exactly
    when it was there at mount or is the theme resolved at mount. *)
Theorem root_classes_follow_theme
    (st : gmap string string) (cl : list string) (os : bool) (evs : list event)
    (c : string) :
  let s := run (mount st cl os) evs in
  theme s ∈ classes s
  /\ (c ∈ classes s <->
       c = theme s \/ (c <> "light" /\ c <> "dark" /\ (c ∈ cl \/ c = resolve st os))).
Proof.
  destruct (root_classes_inv_run st cl os evs) as [_ Hcl].
  split; [apply Hcl; by left|apply Hcl].
Qed.

Lemma classList_add_NoDup c cl : NoDup cl -> NoDup (classList_add c cl).
Proof.
  intros Hnd. unfold classList_add. case_decide; [done|].
  apply NoDup_app. split; [done|]. split; [|apply NoDup_singleton].
  intros x Hx Hc. apply list_elem_of_singleton in Hc. by subst.
Qed.

Lemma apply_theme_NoDup s : NoDup (classes s) -> NoDup (classes (apply_theme s)).
Proof. intros H. simpl. by apply classList_add_NoDup, NoDup_filter. Qed.

(** X3.  The class list stays a set: when the root's classes are free of
    duplicates at mount, they are so in every state the hook can reach. *)
Theorem root_classes_NoDup
    (st : gmap string string) (cl : list string) (os : bool) (evs : list event) :
  NoDup cl -> NoDup (classes (run (mount st cl os) evs)).
Proof.
  intros Hcl. apply (run_invariant (fun s => NoDup (classes s))).
  - intros t s _ Hs.
    destruct (setTheme_cases t s) as [->| ->]; [exact Hs|].
    by apply apply_theme_NoDup.
  - by apply apply_theme_NoDup.
Qed.

Lemma root_classes_NoDup_witness :
  NoDup ["app"; "light"]
  /\ NoDup (classes (run (mount ∅ ["app"; "light"] true) [ClickToggle; OsChange false])).
Proof.
  assert (H : NoDup ["app"; "light"]).
  { repeat apply NoDup_cons_2; try apply NoDup_nil_2;
      rewrite ?elem_of_cons, ?elem_of_nil; intuition discriminate. }
  split; [exact H|].
  exact (root_classes_NoDup ∅ ["app"; "light"] true [ClickToggle; OsChange false] H).
Defined.

Lemma resolve_empty st os : resolve (<["theme" := ""]> st) os = of_matches os.
Proof. unfold resolve, getItem. by rewrite lookup_insert_eq. Qed.

Lemma mode_name t : t = "light" \/ t = "dark" -> exists q, t = name q.
Proof. intros [->| ->]; [by exists light|by exists dark]. Qed.

Lemma theme_mode_run st cl os evs :
  (resolve st os = "light" \/ resolve st os = "dark") ->
  exists q, theme (run (mount st cl os) evs) = name q.
Proof.
  intros H0. destruct (root_classes_inv_run st cl os evs) as [Hth _].
  apply mode_name. destruct Hth as [->|Hth]; assumption.
Qed.

(** X4.  When the page is opened with "light" or "dark" stored, with
    nothing stored, or with the empty string stored, the theme is one of
    the two theme values in every state the hook can reach. *)
Theorem theme_stays_a_mode
    (st : gmap string string) (cl : list string) (os : bool) (evs : list event)
    (p : preference) :
  (exists q, theme (run (mount (<["theme" := name p]> st) cl os) evs) = name q)
  /\ (exists q, theme (run (mount (delete "theme" st) cl os) evs) = name q)
  /\ (exists q, theme (run (mount (<["theme" := ""]> st) cl os) evs) = name q).
Proof.
  split; [|split]; apply theme_mode_run.
  - rewrite (ThemeFacts.resolve_stored _ _ (name p));
      [apply name_mode|apply lookup_insert_eq|apply ThemeFacts.name_nonempty].
  - rewrite ThemeFacts.resolve_absent; [apply of_matches_mode|apply lookup_delete_eq].
  - rewrite resolve_empty. apply of_matches_mode.
Qed.

(** The effect runs through, as [apply_theme] has it, on a theme that is a
    token the DOM accepts. *)
Lemma apply_theme_applied s :
  theme s <> "" -> ThemeDom.has_space (theme s) = false ->
  ThemeDom.apply_theme s = ThemeDom.Applied (apply_theme s).
Proof.
  intros Hne Hsp. unfold ThemeDom.apply_theme, ThemeDom.classList_add.
  by rewrite (ThemeFacts.eqb_empty_false _ Hne), Hsp.
Qed.

(** X5.  A stored string that is not empty, not a theme value and free of
    whitespace is taken as the theme as it is and put on the root element
    as a class, the effect running through.  A click on the toggle then
    sets "dark"; the unknown class stays on the root whatever happens
    afterwards. *)
Theorem unknown_stored_theme
    (v : string) (st : gmap string string) (cl : list string) (os : bool)
    (evs : list event) :
  v <> "" -> v <> "light" -> v <> "dark" -> ThemeDom.has_space v = false ->
  let s := mount (<["theme" := v]> st) cl os in
  ThemeDom.mount (<["theme" := v]> st) cl os = ThemeDom.Applied s
  /\ theme s = v
  /\ v ∈ classes s
  /\ theme (step s ClickToggle) = "dark"
  /\ v ∈ classes (run s evs).
Proof.
  intros Hne Hl Hd Hsp s.
  assert (Hres : resolve (<["theme" := v]> st) os = v)
    by (apply ThemeFacts.resolve_stored; [apply lookup_insert_eq|exact Hne]).
  assert (Hth : theme s = v) by exact Hres.
  split.
  { unfold ThemeDom.mount. rewrite apply_theme_applied; [done| |]; simpl; by rewrite Hres. }
  split; [exact Hth|].
  split.
  { destruct (root_classes_inv_run (<["theme" := v]> st) cl os []) as [_ H].
    apply H. by left. }
  split.
  { change (step s ClickToggle) with (setTheme (toggle (theme s)) s).
    rewrite ThemeFacts.setTheme_theme, Hth. unfold toggle.
    by rewrite (proj2 (String.eqb_neq v "dark") Hd). }
  destruct (root_classes_inv_run (<["theme" := v]> st) cl os evs) as [_ H].
  apply H. right. rewrite Hres. auto.
Qed.

Lemma unknown_stored_theme_witness :
  let s := mount {["theme" := "blue"]} ["app"] false in
  ThemeDom.mount {["theme" := "blue"]} ["app"] false = ThemeDom.Applied s
  /\ theme s = "blue"
  /\ "blue" ∈ classes s
  /\ theme (step s ClickToggle) = "dark"
  /\ "blue" ∈ classes (run s [ClickToggle; ClickToggle]).
Proof.
  exact (unknown_stored_theme "blue" ∅ ["app"] false [ClickToggle; ClickToggle]
           ltac:(discriminate) ltac:(discriminate) ltac:(discriminate) eq_refl).
Defined.

(** X26.  A stored string with whitespace in it is taken as the theme all
    the same, and the effect then stops half way: "light" and "dark" have
    been removed from the root's classes, [classList.add] throws an
    InvalidCharacterError, nothing is added and [setItem] does not run, so
    the storage still holds the string. *)
Theorem stored_theme_with_space_stops_effect
    (v : string) (st : gmap string string) (cl : list string) (os : bool) :
  ThemeDom.has_space v = true ->
  ThemeDom.mount (<["theme" := v]> st) cl os =
  ThemeDom.Thrown ThemeDom.InvalidCharacterError
    {| theme := v;
       storage := <["theme" := v]> st;
       classes := classList_remove ["light"; "dark"] cl |}.
Proof.
  intros Hsp.
  assert (Hne : v <> "") by (intros ->; discriminate Hsp).
  assert (Hres : resolve (<["theme" := v]> st) os = v)
    by (apply ThemeFacts.resolve_stored; [apply lookup_insert_eq|exact Hne]).
  unfold ThemeDom.mount, ThemeDom.apply_theme, ThemeDom.classList_add. simpl.
  by rewrite Hres, (ThemeFacts.eqb_empty_false _ Hne), Hsp.
Qed.

Lemma stored_theme_with_space_stops_effect_witness :
  ThemeDom.mount {["theme" := "my theme"]} ["app"; "light"] true =
  ThemeDom.Thrown ThemeDom.InvalidCharacterError
    {| theme := "my theme";
       storage := {["theme" := "my theme"]};
       classes := ["app"] |}.
Proof.
  exact (stored_theme_with_space_stops_effect "my theme" ∅ ["app"; "light"] true eq_refl).
Defined.

(** X6.  The empty string under "theme" counts as nothing stored: the
    initial theme is the operating system's signal, and mounting replaces
    the empty string by that theme. *)
Theorem empty_stored_theme_is_absent
    (st : gmap string string) (cl : list string) (os : bool) :
  resolve (<["theme" := ""]> st) os = of_matches os
  /\ theme (mount (<["theme" := ""]> st) cl os) = of_matches os
  /\ storage (mount (<["theme" := ""]> st) cl os) = <["theme" := of_matches os]> st.
Proof.
  split; [apply resolve_empty|]. split; [apply resolve_empty|].
  unfold mount, apply_theme, setItem; simpl.
  rewrite resolve_empty. apply insert_insert_eq.
Qed.

Lemma filter_modes_idemp cl :
  classList_remove ["light"; "dark"] (classList_remove ["light"; "dark"] cl)
  = classList_remove ["light"; "dark"] cl.
Proof.
  unfold classList_remove. rewrite list_filter_filter.
  apply list_filter_iff. tauto.
Qed.

Lemma classes_apply_twice c cl :
  classList_add c (classList_remove ["light"; "dark"]
    (classList_add c (classList_remove ["light"; "dark"] cl)))
  = classList_add c (classList_remove ["light"; "dark"] cl).
Proof.
  set (A := classList_remove ["light"; "dark"] cl).
  assert (HA : classList_remove ["light"; "dark"] A = A) by apply filter_modes_idemp.
  unfold classList_add at 2. destruct (decide (c ∈ A)) as [Hin|Hout].
  - rewrite HA. unfold classList_add. by rewrite decide_True.
  - assert (HA' : filter (fun x : string => x ∉ ["light"; "dark"]) A = A) by exact HA.
    unfold classList_remove at 1. rewrite filter_app, filter_cons, filter_nil, HA'.
    destruct (decide (c ∉ ["light"; "dark"])) as [Hc|Hc].
    + unfold classList_add.
      rewrite decide_True
        by (rewrite elem_of_app, list_elem_of_singleton; by right).
      by rewrite decide_False.
    + rewrite app_nil_r. unfold classList_add. by rewrite decide_False.
Qed.

(** X7.  Running the effect of lines 13-18 a second time changes nothing:
    the storage and the root's class list are as after the first run. *)
Theorem apply_theme_idempotent (s : state) :
  apply_theme (apply_theme s) = apply_theme s.
Proof.
  unfold apply_theme, setItem. cbn [theme storage classes].
  by rewrite insert_insert_eq, classes_apply_twice.
Qed.

(** X8.  When nothing truthy is stored under "theme" at the time of a
    change notification (the storage was cleared from outside, say) and the
    notification's theme differs from the current one, the listener sets
    that theme and the effect stores it; every later notification is then
    ignored. *)
Theorem first_followed_change_is_last (s : state) (b b' : bool) :
  JS.truthy_str (getItem (storage s) "theme") = false ->
  of_matches b <> theme s ->
  theme (handler b s) = of_matches b
  /\ getItem (storage (handler b s)) "theme" = Some (of_matches b)
  /\ handler b' (handler b s) = handler b s.
Proof.
  intros Hst Hne.
  assert (Hh : handler b s =
    apply_theme {| theme := of_matches b; storage := storage s; classes := classes s |}).
  { unfold handler. rewrite Hst. simpl. unfold setTheme.
    by rewrite (proj2 (String.eqb_neq _ _) Hne). }
  assert (Hp : persisted (handler b s)).
  { rewrite Hh. apply ThemeFacts.apply_theme_persisted, ThemeFacts.of_matches_nonempty. }
  split; [by rewrite Hh|]. split; [by rewrite Hh; apply lookup_insert_eq|].
  by apply ThemeFacts.handler_persisted.
Qed.

Lemma first_followed_change_is_last_witness :
  let s := {| theme := "light"; storage := ∅; classes := ["light"] |} in
  theme (handler true s) = "dark"
  /\ getItem (storage (handler true s)) "theme" = Some "dark"
  /\ handler false (handler true s) = handler true s.
Proof.
  exact (first_followed_change_is_last
           {| theme := "light"; storage := ∅; classes := ["light"] |} true false
           eq_refl ltac:(discriminate)).
Defined.

End ThemeMore.

(** ** Navigation bar: traces of events, and the theme buttons *)
Module NavMore.

Import Nav NavView.
Local Open Scope Z_scope.

Lemma run_snoc s evs e : run s (evs ++ [e]) = step (run s evs) e.
Proof. unfold run. apply foldl_snoc. Qed.

Lemma offsets_snoc evs e :
  offsets (evs ++ [e]) = (offsets evs ++ match e with Scroll y => [y] | _ => [] end)%list.
Proof. unfold offsets. rewrite omap_app. by destruct e. Qed.

(** The ref holds the offset of the last scroll event. *)
Lemma lastY_run s evs : lastY (run s evs) = default (lastY s) (last (offsets evs)).
Proof.
  induction evs as [|e evs IH] using rev_ind; [done|].
  rewrite run_snoc, offsets_snoc. destruct e as [y| |]; simpl.
  - by rewrite last_snoc.
  - by rewrite app_nil_r.
  - by rewrite app_nil_r.
Qed.

Lemma scrollUp_run s evs ys y1 y2 :
  offsets evs = (ys ++ [y1; y2])%list -> scrollUp (run s evs) = (y2 <? y1).
Proof.
  induction evs as [|e evs IH] using rev_ind; intros Hoff.
  - by destruct ys.
  - rewrite run_snoc. rewrite offsets_snoc in Hoff. destruct e as [y| |]; simpl.
    + change (ys ++ [y1; y2])%list with (ys ++ [y1] ++ [y2])%list in Hoff.
      rewrite app_assoc in Hoff. apply app_inj_tail in Hoff as [Hoff ->].
      by rewrite lastY_run, Hoff, last_snoc.
    + rewrite app_nil_r in Hoff. auto.
    + rewrite app_nil_r in Hoff. auto.
Qed.

(** X9.  The ref starts at 0, not at the page's offset: the first scroll
    event after mount hides the bar whatever its offset (offsets are not
    negative), also when the page was scrolled upward to reach it. *)
Theorem first_scroll_hides_bar (y : Z) :
  0 <= y -> bar (onScroll y init) = hidden /\ lastY (onScroll y init) = y.
Proof.
  intros Hy. split; [|done].
  unfold bar, opacity, onScroll, init; simpl.
  destruct (Z.ltb_spec y 0) as [Hlt|_]; [lia|done].
Qed.

Lemma first_scroll_hides_bar_witness :
  0 <= 400 /\ bar (onScroll 400 init) = hidden /\ lastY (onScroll 400 init) = 400.
Proof.
  assert (H : 0 <= 400) by lia.
  split; [exact H|]. exact (first_scroll_hides_bar 400 H).
Defined.

(** X10.  After any trace of scroll events and clicks in which at least two
    scroll events occur, the bar is shown exactly when the offset of the
    last scroll event is strictly below the offset of the one before it;
    clicks in between and earlier events play no part. *)
Theorem bar_after_trace (s : state) (evs : list event) (ys : list Z) (y1 y2 : Z) :
  offsets evs = (ys ++ [y1; y2])%list ->
  bar (run s evs) = (if y2 <? y1 then shown else hidden)
  /\ lastY (run s evs) = y2.
Proof.
  intros Hoff. split.
  - rewrite NavFacts.bar_scrollUp. by rewrite (scrollUp_run s evs ys y1 y2 Hoff).
  - rewrite lastY_run, Hoff.
    change (ys ++ [y1; y2])%list with (ys ++ [y1] ++ [y2])%list.
    by rewrite app_assoc, last_snoc.
Qed.

Lemma bar_after_trace_witness :
  let evs := [Scroll 300; ClickMenu; Scroll 500; ClickItem; Scroll 420; ClickMenu] in
  offsets evs = ([300] ++ [500; 420])%list
  /\ bar (run init evs) = shown
  /\ lastY (run init evs) = 420.
Proof.
  split; [reflexivity|].
  exact (bar_after_trace init
           [Scroll 300; ClickMenu; Scroll 500; ClickItem; Scroll 420; ClickMenu]
           [300] 500 420 eq_refl).
Defined.

Lemma open_run_filter evs : forall s s',
  open s = open s' ->
  open (run s evs) = open (run s' (filter (fun e => is_scroll e = false) evs)).
Proof.
  induction evs as [|e evs IH]; intros s s' Hopen; [exact Hopen|].
  destruct e as [y| |].
  - rewrite filter_cons_False by done. simpl. by apply IH.
  - rewrite filter_cons_True by done. simpl. apply IH. simpl. by rewrite Hopen.
  - rewrite filter_cons_True by done. simpl. by apply IH.
Qed.

Lemma scroll_run_filter evs : forall s s',
  scrollUp s = scrollUp s' -> lastY s = lastY s' ->
  scrollUp (run s evs) = scrollUp (run s' (filter (fun e => is_scroll e = true) evs))
  /\ lastY (run s evs) = lastY (run s' (filter (fun e => is_scroll e = true) evs)).
Proof.
  induction evs as [|e evs IH]; intros s s' Hup Hy; [done|].
  destruct e as [y| |].
  - rewrite filter_cons_True by done. simpl. apply IH; simpl; [by rewrite Hy|done].
  - rewrite filter_cons_False by done. simpl. by apply IH.
  - rewrite filter_cons_False by done. simpl. by apply IH.
Qed.

(** X11.  The menu and the bar do not interfere: whether the menu is open
    after a trace is what the clicks of the trace alone give, and the bar's
    visibility and the remembered offset are what its scroll events alone
    give. *)
Theorem menu_and_scroll_independent (s : state) (evs : list event) :
  open (run s evs) = open (run s (filter (fun e => is_scroll e = false) evs))
  /\ bar (run s evs) = bar (run s (filter (fun e => is_scroll e = true) evs))
  /\ lastY (run s evs) = lastY (run s (filter (fun e => is_scroll e = true) evs)).
Proof.
  split; [by apply open_run_filter|].
  destruct (scroll_run_filter evs s s eq_refl eq_refl) as [Hup Hy].
  split; [|exact Hy]. by rewrite !NavFacts.bar_scrollUp, Hup.
Qed.

(** X12.  A theme button shows the sun exactly when the theme is "dark",
    and then sets "light"; for every other theme string it shows the moon
    and sets "dark".  So a click on it always changes the icon: in a
    mounted hook the icon after a toggle click differs from the one
    before, and the buttons of the row and of the panel are the same. *)
Theorem theme_button_flips_icon
    (t : string) (s : Nav.state)
    (st : gmap string string) (cl : list string) (os : bool) (evs : list Theme.event) :
  (theme_icon t = Sun <-> t = "dark"%string)
  /\ (theme_icon t = Sun <-> Theme.toggle t = "light"%string)
  /\ theme_icon (Theme.toggle t) <> theme_icon t
  /\ (let h := Theme.run (Theme.mount st cl os) evs in
      theme_icon (Theme.theme (Theme.step h Theme.ClickToggle))
      <> theme_icon (Theme.theme h))
  /\ view_panel (render t (click_menu (click_item s)))
     = Some (view_row (render t s), view_row_button (render t s)).
Proof.
  assert (Hflip : forall u, theme_icon (Theme.toggle u) <> theme_icon u).
  { intros u. unfold theme_icon, Theme.toggle.
    by destruct (String.eqb u "dark"). }
  split.
  { unfold theme_icon. destruct (String.eqb_spec t "dark"); split; congruence. }
  split.
  { unfold theme_icon, Theme.toggle. by destruct (String.eqb t "dark"). }
  split; [apply Hflip|]. split; [|reflexivity].
  simpl. rewrite ThemeFacts.setTheme_theme. apply Hflip.
Qed.

End NavMore.

(** ** Navigation bar: the scroll delta *)
Module NavDelta.

Import Nav NavView.
Local Open Scope Z_scope.

(** Once a scroll event has been handled, or when the page was at the top
    at mount, the ref holds the offset the page had before the next
    event. *)
Lemma lastY_previous_offset y0 evs :
  offsets evs <> [] \/ y0 = 0 ->
  lastY (run init evs) = ScrollDelta.previous_offset y0 evs.
Proof.
  intros H. rewrite NavMore.lastY_run. unfold ScrollDelta.previous_offset.
  destruct (last (offsets evs)) as [y|] eqn:El; [done|].
  destruct H as [H| ->]; [|done].
  apply last_None in El. contradiction.
Qed.

(** C6, as the code has it.  For every scroll event but the first one on a
    page that was not at the top at mount, whatever scroll events and
    clicks came before: after the event the bar is shown exactly when the
    event's scroll delta is upward, that is negative, and hidden when it is
    downward or zero; nothing else decides it.  The event's offset is kept
    for the next event. *)
Theorem bar_follows_scroll_delta (y0 : Z) (evs : list event) (y : Z) :
  offsets evs <> [] \/ y0 = 0 ->
  bar (onScroll y (run init evs))
    = (if ScrollDelta.delta y0 evs y <? 0 then shown else hidden)
  /\ lastY (onScroll y (run init evs)) = y.
Proof.
  intros H. split; [|done].
  rewrite NavFacts.bar_scrollUp. cbn [onScroll scrollUp].
  rewrite (lastY_previous_offset y0 evs H). unfold ScrollDelta.delta.
  destruct (Z.ltb_spec y (ScrollDelta.previous_offset y0 evs)),
    (Z.ltb_spec (y - ScrollDelta.previous_offset y0 evs) 0); (done || lia).
Qed.

Lemma bar_follows_scroll_delta_witness :
  ScrollDelta.delta 500 [Scroll 300; ClickMenu] 250 = -50
  /\ bar (onScroll 250 (run init [Scroll 300; ClickMenu])) = shown
  /\ lastY (onScroll 250 (run init [Scroll 300; ClickMenu])) = 250.
Proof.
  assert (H : offsets [Scroll 300; ClickMenu] <> [] \/ 500 = 0)
    by (left; discriminate).
  destruct (bar_follows_scroll_delta 500 [Scroll 300; ClickMenu] 250 H) as [Hbar Hy].
  split; [reflexivity|]. split; [exact Hbar|exact Hy].
Defined.

(** C6 fails for a zero delta: on a page that has been scrolled to 120, a
    scroll event that leaves the vertical offset at 120 (a horizontal
    scroll, say) hides the bar. *)
Lemma zero_delta_hides_bar :
  ScrollDelta.delta 0 [Scroll 120] 120 = 0
  /\ bar (onScroll 120 (run init [Scroll 120])) = hidden
  /\ ~ (ScrollDelta.delta 0 [Scroll 120] 120 <= 0 ->
        bar (onScroll 120 (run init [Scroll 120])) = shown).
Proof.
  split; [reflexivity|]. split; [reflexivity|].
  intros H. specialize (H ltac:(done)). discriminate H.
Qed.

End NavDelta.

(** ** Rendering: what the sections accept and what they throw on *)
Module RenderMore.

Import JS Render Shape.

















(** X17.  An element that is neither an object nor undefined or null (a
    string, a number, a boolean, an array) is rendered as a project item
    with every field undefined and no link control. *)
Theorem render_project_primitive (x : value) :
  nullish x = false -> is_object x = false ->
  render_project x =
  Normal {| project_key := Undefined;
            project_title := Undefined;
            project_summary := Undefined;
            project_links := [Value Undefined; Value Undefined] |}.
Proof. destruct x; try done. Qed.

Lemma render_project_primitive_witness :
  render_projects (Arr [Str "a"; Num 3]) =
  Normal [ {| project_key := Undefined; project_title := Undefined;
              project_summary := Undefined;
              project_links := [Value Undefined; Value Undefined] |};
           {| project_key := Undefined; project_title := Undefined;
              project_summary := Undefined;
              project_links := [Value Undefined; Value Undefined] |} ].
Proof.
  unfold render_projects, map, map_elems.
  rewrite (render_project_primitive (Str "a") eq_refl eq_refl).
  rewrite (render_project_primitive (Num 3) eq_refl eq_refl).
  reflexivity.
Defined.

End RenderMore.

(** ** Content loading: what is stored, and how it is shown *)
Module LoaderMore.

Import JS Loader Shape.

(** X18.  A response whose body is JSON is stored as it is, whatever its
    status and whatever the body is (a list, an object, a number): after
    the page has mounted the collection's cell holds the parsed body. *)
Theorem json_body_stored_for_any_status
    (env : option string) (net : string -> outcome) (c : collection)
    (status : Z) (v : value) :
  net (endpoint_url (or_str env "") c) = Response status (Some v) ->
  cell c (snd (mount env net)) = v.
Proof. intros H. by rewrite LoaderFacts.cell_mount, H. Qed.

Lemma json_body_stored_for_any_status_witness :
  cell education
    (snd (mount (Some "https://api.example")
            (fun _ => Response 500 (Some (Obj {["error" := Str "down"]})))))
  = Obj {["error" := Str "down"]}.
Proof.
  exact (json_body_stored_for_any_status (Some "https://api.example")
           (fun _ => Response 500 (Some (Obj {["error" := Str "down"]})))
           education 500 (Obj {["error" := Str "down"]}) eq_refl).
Defined.





(** X21.  Run from any state of the page, each of the three effects ends in
    a fulfilled promise, appends exactly its own requests to the log and
    writes to its own cells only.  Projects and Blog leave their cell as it
    was when the request is rejected or the body is not JSON; Experience
    sets each of its two cells to the parsed body or to the empty list. *)
Theorem effects_write_own_cells
    (env : option string) (net : string -> outcome) (p : page) :
  let base := or_str env "" in
  load env net p =
    (Normal tt,
     {| items := match net (base ++ "/api/projects") with
                 | Response _ (Some v) => v
                 | _ => items p
                 end;
        xp := xp p; edu := edu p; posts := posts p;
        requests := requests p ++ [base ++ "/api/projects"] |})
  /\ load_experience env net p =
    (Normal tt,
     {| items := items p;
        xp := settled_body (net (base ++ "/api/experience"));
        edu := settled_body (net (base ++ "/api/education"));
        posts := posts p;
        requests := requests p ++ [base ++ "/api/experience"; base ++ "/api/education"] |})
  /\ load_posts env net p =
    (Normal tt,
     {| items := items p; xp := xp p; edu := edu p;
        posts := match net (base ++ "/api/posts") with
                 | Response _ (Some v) => v
                 | _ => posts p
                 end;
        requests := requests p ++ [base ++ "/api/posts"] |}).
Proof.
  intros base. destruct p as [i x e po rq].
  unfold load, load_experience, load_posts, all2, catch, and_then,
    fetch, json, resolve, reject, setItems, setXp, setEdu, setPosts.
  fold base. cbn [items xp edu posts requests].
  split; [|split].
  - by destruct (net (base ++ "/api/projects")) as [|? [?|]].
  - destruct (net (base ++ "/api/experience")) as [|? [?|]];
    destruct (net (base ++ "/api/education")) as [|? [?|]];
    cbn; by rewrite <- app_assoc.
  - by destruct (net (base ++ "/api/posts")) as [|? [?|]].
Qed.

End LoaderMore.

(** ** App: the pointer dot *)
Module AppFacts.

Import App.
Local Open Scope list_scope.

Lemma app_run_invariant (P : state -> Prop) evs :
  (forall a ev, ev ∈ evs -> P a -> P (step a ev)) ->
  forall a, P a -> P (run a evs).
Proof.
  induction evs as [|e evs IH]; intros Hstep a Ha; [exact Ha|].
  simpl. apply IH.
  - intros a' ev Hev. apply Hstep. by right.
  - apply Hstep; [by left|exact Ha].
Qed.

Lemma filter_foreign k (tags : list string) :
  filter (fun n => n <> Dot k) (Foreign <$> tags) = Foreign <$> tags.
Proof.
  induction tags as [|t tags IH]; [done|].
  rewrite fmap_cons, filter_cons_True by done. by rewrite IH.
Qed.

Lemma cleanup_body k (tags : list string) d :
  body d = (Foreign <$> tags) ++ [Dot k] -> body (cleanup k d) = Foreign <$> tags.
Proof.
  intros Hb. unfold cleanup; simpl. rewrite Hb, filter_app, filter_foreign.
  rewrite filter_cons_False, filter_nil by (intros H; by apply H).
  apply app_nil_r.
Qed.

Lemma cleanup_listeners k t d :
  listeners d = [] \/ listeners d = [(k, t)] -> listeners (cleanup k d) = [].
Proof.
  intros [Hl|Hl]; unfold cleanup; simpl; rewrite Hl; [done|].
  rewrite filter_cons_False, filter_nil; [done|]. intros H. by apply H.
Qed.

Lemma foldl_move_frame x y ls : forall d,
  body (foldl (fun d' l => move l.1 l.2 x y d') d ls) = body d
  /\ listeners (foldl (fun d' l => move l.1 l.2 x y d') d ls) = listeners d
  /\ created (foldl (fun d' l => move l.1 l.2 x y d') d ls) = created d.
Proof.
  induction ls as [|l ls IH]; intros d; [done|].
  simpl. destruct (IH (move l.1 l.2 x y d)) as (-> & -> & ->). done.
Qed.

Lemma pointermove_frame x y d :
  body (pointermove x y d) = body d
  /\ listeners (pointermove x y d) = listeners d
  /\ created (pointermove x y d) = created d.
Proof. apply foldl_move_frame. Qed.

(** The body is the page's nodes followed by the dot of the last run, and
    the only listener there can be is the closure of that run. *)
Lemma step_shape (tags : list string) a ev :
  body (document a) = (Foreign <$> tags) ++ [Dot (dot a)] ->
  (listeners (document a) = []
   \/ listeners (document a) = [(dot a, Theme.theme (hook a))]) ->
  body (document (step a ev)) = (Foreign <$> tags) ++ [Dot (dot (step a ev))]
  /\ (listeners (document (step a ev)) = []
      \/ listeners (document (step a ev))
         = [(dot (step a ev), Theme.theme (hook (step a ev)))]).
Proof.
  intros Hb Hl. destruct ev as [e b|x y]; cbn [step].
  - destruct (String.eqb_spec (Theme.theme (Theme.step (hook a) e))
                (Theme.theme (hook a))) as [Heq|Hne].
    + cbn [document dot hook]. split; [exact Hb|]. by rewrite Heq.
    + unfold effect. cbn [document dot hook fst snd body listeners].
      rewrite (cleanup_body _ _ _ Hb), (cleanup_listeners _ _ _ Hl).
      split; [done|]. destruct b; simpl; auto.
  - cbn [document dot hook].
    destruct (pointermove_frame x y (document a)) as (-> & -> & _). by split.
Qed.

Lemma run_shape st cl os r tags evs :
  let a := run (mount st cl os r tags) evs in
  body (document a) = (Foreign <$> tags) ++ [Dot (dot a)]
  /\ (listeners (document a) = []
      \/ listeners (document a) = [(dot a, Theme.theme (hook a))]).
Proof.
  apply (app_run_invariant (fun a =>
    body (document a) = (Foreign <$> tags) ++ [Dot (dot a)]
    /\ (listeners (document a) = []
        \/ listeners (document a) = [(dot a, Theme.theme (hook a))]))).
  - intros a ev _ [Hb Hl]. by apply step_shape.
  - split; [done|]. unfold mount; simpl. destruct r; simpl; auto.
Qed.

(** X22.  However often the theme changes and the pointer moves, the body
    holds the nodes it had at mount, untouched and in order, followed by
    exactly one dot, the one of the effect's last run; unmounting removes
    that dot and leaves no listener, so the body is as it was before the
    page mounted. *)
Theorem one_dot_in_body
    (st : gmap string string) (cl : list string) (os r : bool) (tags : list string)
    (evs : list event) :
  let a := run (mount st cl os r tags) evs in
  body (document a) = (Foreign <$> tags) ++ [Dot (dot a)]
  /\ body (unmount a) = Foreign <$> tags
  /\ listeners (unmount a) = [].
Proof.
  intros a. destruct (run_shape st cl os r tags evs) as [Hb Hl]. fold a in Hb, Hl.
  split; [exact Hb|]. split.
  - by apply cleanup_body.
  - by eapply cleanup_listeners.
Qed.

(** X23.  At most one pointermove listener is registered at any time, and
    if one is, it is the closure of the effect's last run: it moves the
    dot that is in the body and has captured the current theme. *)
Theorem one_listener_with_current_theme
    (st : gmap string string) (cl : list string) (os r : bool) (tags : list string)
    (evs : list event) :
  let a := run (mount st cl os r tags) evs in
  listeners (document a) = []
  \/ listeners (document a) = [(dot a, Theme.theme (hook a))].
Proof. apply (run_shape st cl os r tags evs). Qed.

(** X24.  When the reduced-motion query answers yes at every run of the
    effect, no pointermove listener is ever registered: the dot is in the
    body all the same, but pointer moves never give it a position or a
    colour. *)
Theorem reduced_motion_never_listens
    (st : gmap string string) (cl : list string) (os : bool) (tags : list string)
    (evs : list event) :
  (forall e b, ThemeEvent e b ∈ evs -> b = true) ->
  let a := run (mount st cl os true tags) evs in
  listeners (document a) = []
  /\ Dot (dot a) ∈ body (document a)
  /\ styles (document a) !! dot a = Some {| transform := None; background := None |}.
Proof.
  intros Hred a.
  assert (H : listeners (document a) = []
    /\ styles (document a) !! dot a = Some {| transform := None; background := None |}).
  { apply (app_run_invariant (fun a => listeners (document a) = []
      /\ styles (document a) !! dot a
         = Some {| transform := None; background := None |})).
    - intros a' ev Hev [Hl Hs]. destruct ev as [e b|x y]; cbn [step].
      + rewrite (Hred e b Hev).
        destruct (String.eqb (Theme.theme (Theme.step (hook a') e))
                    (Theme.theme (hook a'))); [by split|].
        unfold effect. cbn [document dot hook fst snd listeners styles negb].
        split; [by apply (cleanup_listeners _ ""); left|apply lookup_insert_eq].
      + cbn [document dot hook]. unfold pointermove. rewrite Hl. by split.
    - split; [done|]. unfold mount, effect; simpl. apply lookup_insert_eq. }
  destruct H as [Hl Hs]. split; [exact Hl|]. split; [|exact Hs].
  destruct (run_shape st cl os true tags evs) as [Hb _]. fold a in Hb.
  rewrite Hb, elem_of_app, list_elem_of_singleton. by right.
Qed.

Lemma reduced_motion_never_listens_witness :
  let a := run (mount ∅ [] false true ["root"])
             [ThemeEvent Theme.ClickToggle true; PointerMove 30 40] in
  listeners (document a) = []
  /\ Dot (dot a) ∈ body (document a)
  /\ styles (document a) !! dot a = Some {| transform := None; background := None |}.
Proof.
  assert (H : forall e b,
    ThemeEvent e b ∈ [ThemeEvent Theme.ClickToggle true; PointerMove 30 40] -> b = true).
  { intros e b He. apply elem_of_cons in He as [He|He]; [by inversion He|].
    apply list_elem_of_singleton in He. discriminate He. }
  exact (reduced_motion_never_listens ∅ [] false ["root"]
           [ThemeEvent Theme.ClickToggle true; PointerMove 30 40] H).
Defined.

(** X25.  When the reduced-motion query answers no at every run of the
    effect, a pointer move in any reachable state puts the current dot at
    the pointer's offsets and gives it the colour of the current theme,
    also after the theme has changed; for the two theme values that colour
    is the violet entry of the accents table. *)
Theorem pointer_move_paints_current_theme
    (st : gmap string string) (cl : list string) (os : bool) (tags : list string)
    (evs : list event) (x y : Z) :
  (forall e b, ThemeEvent e b ∈ evs -> b = false) ->
  let a := run (mount st cl os false tags) evs in
  styles (document (step a (PointerMove x y))) !! dot a
  = Some {| transform := Some (x, y);
            background := Some (dot_colour (Theme.theme (hook a))) |}
  /\ forall p, accents !! Theme.name p ≫= (fun m => m !! "violet")
              = Some (dot_colour (Theme.name p)).
Proof.
  intros Hmot a. split; [|by intros []].
  assert (Hl : listeners (document a) = [(dot a, Theme.theme (hook a))]).
  { apply (app_run_invariant (fun a =>
      listeners (document a) = [(dot a, Theme.theme (hook a))])); [|done].
    intros a' ev Hev Hl. destruct ev as [e b|x' y']; cbn [step].
    - rewrite (Hmot e b Hev).
      destruct (String.eqb_spec (Theme.theme (Theme.step (hook a') e))
                  (Theme.theme (hook a'))) as [Heq|Hne].
      + cbn [document dot hook]. by rewrite Heq.
      + unfold effect. cbn [document dot hook fst snd listeners negb].
        by rewrite (cleanup_listeners _ (Theme.theme (hook a')) _ (or_intror Hl)).
    - cbn [document dot hook].
      by destruct (pointermove_frame x' y' (document a')) as (_ & -> & _). }
  cbn [step document]. unfold pointermove. rewrite Hl. simpl.
  apply lookup_insert_eq.
Qed.

Lemma pointer_move_paints_current_theme_witness :
  let a := run (mount ∅ [] false false ["root"])
             [PointerMove 1 2; ThemeEvent Theme.ClickToggle false] in
  styles (document (step a (PointerMove 30 40))) !! dot a
  = Some {| transform := Some (30%Z, 40%Z); background := Some "#A78BFA" |}.
Proof.
  assert (H : forall e b,
    ThemeEvent e b ∈ [PointerMove 1 2; ThemeEvent Theme.ClickToggle false] -> b = false).
  { intros e b He. apply elem_of_cons in He as [He|He]; [discriminate He|].
    apply list_elem_of_singleton in He. by inversion He. }
  exact (proj1 (pointer_move_paints_current_theme ∅ [] false ["root"]
           [PointerMove 1 2; ThemeEvent Theme.ClickToggle false] 30 40 H)).
Defined.

End AppFacts.
